(** * Video prompt optimizer: analysis engine, optimizer and scene collection

    A shallow embedding of
      - client/src/utils/promptAnalyzer.ts   (class PromptAnalyzer)
      - client/src/utils/promptOptimizer.ts  (class PromptOptimizer)
      - the scene-collection operations of the VideoPromptOptimizer component
        (removeScene, exportToCSV, handleCSVImport, getOverallAnalysis)
    together with the properties the specification states about them.

    Modelling conventions.
      - A JavaScript string is a [string]: a sequence of code units below
        256.  The whitespace class of [\s] and of [trim] is TAB, LF, VT, FF,
        CR, SPACE and U+00A0, its members below 256.  The case conversions
        are the letter-wise maps A-Z <-> a-z, which is what the engine does
        on ASCII text (code units below 128); a statement that rests on the
        case conversion of arbitrary text carries that restriction.
      - A JavaScript number is a rational ([Q]) where the source computes with
        fractions and an integer ([Z], [nat] for lengths) where it cannot
        leave the integers.  Every product the scorers form (a multiple of 10
        times 0.2 or 0.15) is a multiple of 0.5 and exactly representable, so
        rounding sees the same value in both readings.  The readability
        formula is evaluated in exact rationals; a double carries it with a
        relative error of about 1e-16.
      - [Math.round x] is [floor (x + 1/2)] (ties go up).
      - [Date.now()] is an explicit argument, taken as constant during one
        import. *)

From Stdlib Require Import Bool Arith ZArith QArith Qround Qminmax Lia Lqa List.
From Stdlib Require Import Ascii String DecimalString DecimalPos.
Import ListNotations.

Local Open Scope string_scope.
Local Open Scope bool_scope.
Local Open Scope nat_scope.

(* ================================================================== *)
(** ** JavaScript string and number primitives used by the sources *)
(* ================================================================== *)

Module JS.

Definition code (c : ascii) : nat := nat_of_ascii c.

(** [\s], and the characters [trim] strips: TAB LF VT FF CR SPACE and the
    no-break space U+00A0.  The other members of the class (U+1680,
    U+2000-U+200A, U+2028, U+2029, U+202F, U+205F, U+3000, U+FEFF) lie above
    the code units a [string] holds. *)
Definition isWhiteSpace (c : ascii) : bool :=
  ((9 <=? code c) && (code c <=? 13)) || (code c =? 32) || (code c =? 160).

Definition isUpperLetter (c : ascii) : bool := (65 <=? code c) && (code c <=? 90).
Definition isLowerLetter (c : ascii) : bool := (97 <=? code c) && (code c <=? 122).

Definition toLowerChar (c : ascii) : ascii :=
  if isUpperLetter c then ascii_of_nat (code c + 32) else c.
Definition toUpperChar (c : ascii) : ascii :=
  if isLowerLetter c then ascii_of_nat (code c - 32) else c.

(** [String.prototype.toLowerCase] / [toUpperCase]. *)
Fixpoint toLowerCase (s : string) : string :=
  match s with
  | EmptyString => EmptyString
  | String c s' => String (toLowerChar c) (toLowerCase s')
  end.

Fixpoint toUpperCase (s : string) : string :=
  match s with
  | EmptyString => EmptyString
  | String c s' => String (toUpperChar c) (toUpperCase s')
  end.

(** [s.startsWith(p)]. *)
Fixpoint startsWith (p s : string) : bool :=
  match p, s with
  | EmptyString, _ => true
  | String _ _, EmptyString => false
  | String a p', String b s' => Ascii.eqb a b && startsWith p' s'
  end.

(** [s.includes(kw)]: [kw] occurs in [s] as a substring. *)
Fixpoint includes (s kw : string) : bool :=
  startsWith kw s ||
  match s with
  | EmptyString => false
  | String _ s' => includes s' kw
  end.

(** [Array.prototype.includes] on an array of strings. *)
Definition arrayIncludes (xs : list string) (x : string) : bool :=
  existsb (String.eqb x) xs.

Fixpoint trimStart (s : string) : string :=
  match s with
  | EmptyString => EmptyString
  | String c s' => if isWhiteSpace c then trimStart s' else s
  end.

Fixpoint trimEnd (s : string) : string :=
  match s with
  | EmptyString => EmptyString
  | String c s' =>
      match trimEnd s' with
      | EmptyString => if isWhiteSpace c then EmptyString else String c EmptyString
      | r => String c r
      end
  end.

(** [String.prototype.trim]. *)
Definition trim (s : string) : string := trimEnd (trimStart s).

(** Truthiness of a string: non-empty. *)
Definition truthy (s : string) : bool :=
  match s with EmptyString => false | String _ _ => true end.

(** [s.split(/[sep]+/)] for a character class [sep]: the pieces between the
    maximal runs of separator characters.  A run at the very start or end
    leaves an empty piece there; the empty string splits into one empty
    piece.  [inRun] records that the previous character was a separator. *)
Fixpoint splitRunsFrom (sep : ascii -> bool) (inRun : bool) (s : string) : list string :=
  match s with
  | EmptyString => [EmptyString]
  | String c s' =>
      if sep c then
        if inRun then splitRunsFrom sep true s'
        else EmptyString :: splitRunsFrom sep true s'
      else
        match splitRunsFrom sep false s' with
        | piece :: rest => String c piece :: rest
        | [] => [String c EmptyString]
        end
  end.

Definition splitRuns (sep : ascii -> bool) (s : string) : list string :=
  splitRunsFrom sep false s.

(** [s.split(c)] for a one-character separator string: a cut at every
    occurrence. *)
Fixpoint splitChar (sep : ascii) (s : string) : list string :=
  match s with
  | EmptyString => [EmptyString]
  | String c s' =>
      if Ascii.eqb c sep then EmptyString :: splitChar sep s'
      else
        match splitChar sep s' with
        | piece :: rest => String c piece :: rest
        | [] => [String c EmptyString]
        end
  end.

(** [xs.join(sep)]. *)
Fixpoint join (sep : string) (xs : list string) : string :=
  match xs with
  | [] => EmptyString
  | [x] => x
  | x :: rest => x ++ sep ++ join sep rest
  end.

(** [s.replace(/[^...]/g, '')] for the complement of a class: keep the
    characters of the class. *)
Fixpoint keepChars (keep : ascii -> bool) (s : string) : string :=
  match s with
  | EmptyString => EmptyString
  | String c s' => if keep c then String c (keepChars keep s') else keepChars keep s'
  end.

(** The quotation mark, code 34. *)
Definition dquote : ascii := ascii_of_nat 34.

(** [replace] of every quotation mark by two of them (the global regex of
    exportToCSV). *)
Fixpoint doubleQuotes (s : string) : string :=
  match s with
  | EmptyString => EmptyString
  | String c s' =>
      if Ascii.eqb c dquote then String c (String c (doubleQuotes s'))
      else String c (doubleQuotes s')
  end.

(** Drop the last character when it is [c]: [s.replace(/c$/, '')]. *)
Fixpoint dropLastIf (c : ascii) (s : string) : string :=
  match s with
  | EmptyString => EmptyString
  | String a EmptyString => if Ascii.eqb a c then EmptyString else s
  | String a s' => String a (dropLastIf c s')
  end.

(** [replace] with the global regex of handleCSVImport (a quotation mark at
    the start, or one at the end): one mark off the front, then one off the
    end of what is left. *)
Definition stripQuotes (s : string) : string :=
  match s with
  | String c s' => if Ascii.eqb c dquote then dropLastIf dquote s' else dropLastIf dquote s
  | EmptyString => EmptyString
  end.

(** A word between quotation marks, for the messages that quote one. *)
Definition quoted (s : string) : string := String dquote (s ++ String dquote EmptyString).

(** [a < b] on numbers. *)
Definition Qlt_bool (a b : Q) : bool := negb (Qle_bool b a).

(** [Math.round]. *)
Definition Math_round (x : Q) : Z := Qfloor (x + (1 # 2)).

(** Number-to-string conversion of an integer, as a template literal or
    [join] performs it. *)
Definition numberToString (n : Z) : string := NilZero.string_of_int (Z.to_int n).

(** Value of a digit in the given radix. *)
Definition digitValue (radix : Z) (c : ascii) : option Z :=
  let n := Z.of_nat (code c) in
  let v := (if (48 <=? n) && (n <=? 57) then n - 48
            else if (97 <=? n) && (n <=? 122) then n - 87
            else if (65 <=? n) && (n <=? 90) then n - 55
            else 99)%Z in
  if (v <? radix)%Z then Some v else None.

(** The longest prefix of digits, read left to right; [None] when there is
    no digit at all. *)
Fixpoint readDigits (radix : Z) (acc : option Z) (s : string) : option Z :=
  match s with
  | EmptyString => acc
  | String c s' =>
      match digitValue radix c with
      | Some v => readDigits radix (Some (match acc with Some a => a * radix + v | None => v end)) s'
      | None => acc
      end
  end%Z.

Definition readUnsigned (s : string) : option Z :=
  match s with
  | String "0" (String x s') =>
      if Ascii.eqb x "x" || Ascii.eqb x "X" then readDigits 16 None s'
      else readDigits 10 None s
  | _ => readDigits 10 None s
  end.

(** [parseInt(s)] without a radix argument; [None] is NaN.  The value is
    the integer the digits denote; the engine holds it as a double, which is
    the same number up to 2^53. *)
Definition parseInt (s : string) : option Z :=
  match trimStart s with
  | String "-" s' => option_map Z.opp (readUnsigned s')
  | String "+" s' => readUnsigned s'
  | s' => readUnsigned s'
  end.

(** [n || d] for a possibly-NaN number: NaN and 0 are falsy. *)
Definition numberOr (n : option Z) (d : Z) : Z :=
  match n with
  | Some 0%Z | None => d
  | Some v => v
  end.

(** [s || d] for a possibly-undefined string. *)
Definition stringOr (s : option string) (d : string) : string :=
  match s with
  | Some (String c r) => String c r
  | _ => d
  end.

End JS.

(* ================================================================== *)
(** ** types/scene.ts: the analysis result *)
(* ================================================================== *)

Record AnalysisBlock := mkAnalysisBlock {
  score : Z;
  issues : list string;
  suggestions : list string
}.

(** The string-literal union of [overall.readiness]. *)
Inductive Readiness := ProductionReady | Good | NeedsWork | Poor.

Record Overall := mkOverall {
  overall_score : Z;
  readiness : Readiness
}.

Record PromptAnalysis := mkPromptAnalysis {
  image : AnalysisBlock;
  video : AnalysisBlock;
  voice : AnalysisBlock;
  overall : Overall
}.

(* ================================================================== *)
(** ** utils/promptAnalyzer.ts *)
(* ================================================================== *)

Module PromptAnalyzer.
Import JS.

Definition TOPIC_educational : list string :=
  ["learn"; "explain"; "understand"; "concept"; "theory"; "principle"; "definition"].
Definition TOPIC_visual : list string :=
  ["visualize"; "illustrate"; "display"; "show"; "demonstrate"; "present"; "reveal"].
Definition TOPIC_motion : list string :=
  ["move"; "transition"; "flow"; "slide"; "zoom"; "pan"; "rotate"; "animate"].
Definition TOPIC_engagement : list string :=
  ["interactive"; "engaging"; "compelling"; "captivating"; "dynamic"; "vibrant"].

(** [Object.values(TOPIC_KEYWORDS)], in insertion order. *)
Definition TOPIC_KEYWORDS : list (list string) :=
  [TOPIC_educational; TOPIC_visual; TOPIC_motion; TOPIC_engagement].

Definition MOTION_VERBS : list string :=
  ["moves"; "flows"; "transitions"; "slides"; "zooms"; "pans"; "rotates"; "animates";
   "shifts"; "transforms"; "morphs"; "evolves"; "emerges"; "unfolds"; "reveals"].

Definition positiveWords : list string :=
  ["good"; "great"; "excellent"; "amazing"; "wonderful"; "perfect"; "best";
   "beautiful"; "clear"; "easy"].
Definition negativeWords : list string :=
  ["bad"; "terrible"; "awful"; "horrible"; "wrong"; "difficult"; "hard";
   "confusing"; "unclear"].

(** [text.split(/\s+/)]. *)
Definition splitWhitespace (text : string) : list string := splitRuns isWhiteSpace text.

Definition calculateSentiment (text : string) : Z :=
  let words := splitWhitespace (toLowerCase text) in
  fold_left
    (fun sc word =>
       let sc := if arrayIncludes positiveWords word then sc + 1 else sc in
       if arrayIncludes negativeWords word then sc - 1 else sc)%Z
    words 0%Z.

Definition isSentenceEnd (c : ascii) : bool :=
  Ascii.eqb c "." || Ascii.eqb c "!" || Ascii.eqb c "?".

Definition isVowel (c : ascii) : bool :=
  existsb (Ascii.eqb c) ["a"; "e"; "i"; "o"; "u"; "A"; "E"; "I"; "O"; "U"]%char.

(** The three counts of calculateFleschKincaid, lines 32-36. *)
Definition sentenceCount (text : string) : nat :=
  List.length (filter (fun s => 0 <? String.length (trim s)) (splitRuns isSentenceEnd text)).

Definition wordCount (text : string) : nat :=
  List.length (filter (fun w => 0 <? String.length w) (splitWhitespace text)).

Definition syllableCount (text : string) : nat :=
  fold_left
    (fun count word => count + Nat.max 1 (String.length (keepChars isVowel word)))
    (splitWhitespace text) 0.

Definition ofNat (n : nat) : Q := inject_Z (Z.of_nat n).

Definition calculateFleschKincaid (text : string) : Q :=
  let sentences := sentenceCount text in
  let words := wordCount text in
  let syllables := syllableCount text in
  if (sentences =? 0) || (words =? 0) then 0%Q
  else ((206835 # 1000) - (1015 # 1000) * (ofNat words / ofNat sentences)
        - (846 # 10) * (ofNat syllables / ofNat words))%Q.

(** [word[0]] and [word.slice(1)]. *)
Definition charAt0 (word : string) : string :=
  match word with
  | EmptyString => EmptyString
  | String c _ => String c EmptyString
  end.

Definition slice1 (word : string) : string :=
  match word with
  | EmptyString => EmptyString
  | String _ rest => rest
  end.

Definition properNounStopwords : list string := ["The"; "A"; "An"; "This"; "That"].

Definition isProperNoun (word : string) : bool :=
  (2 <? String.length word) &&
  String.eqb (charAt0 word) (toUpperCase (charAt0 word)) &&
  String.eqb (slice1 word) (toLowerCase (slice1 word)) &&
  negb (arrayIncludes properNounStopwords word).

Definition detectProperNouns (text : string) : list string :=
  filter isProperNoun (splitWhitespace text).

Definition scoreTopicRelevance (text : string) : Z :=
  let lowerText := toLowerCase text in
  let sc :=
    fold_left
      (fun sc keywords =>
         fold_left (fun sc keyword => if includes lowerText keyword then sc + 10 else sc)
                   keywords sc)%Z
      TOPIC_KEYWORDS 0%Z in
  Z.min 100 sc.

(** The three locals a scorer threads through its rules. *)
Record Tally := mkTally {
  total : Q;
  found : list string;
  advice : list string
}.

Definition start : Tally := mkTally 50 [] [].

(** [issues.push(i); suggestions.push(s); score += d]. *)
Definition flag (i s : string) (d : Q) (t : Tally) : Tally :=
  mkTally (total t + d) (found t ++ [i]) (advice t ++ [s]).

(** [score += d]. *)
Definition adjust (d : Q) (t : Tally) : Tally :=
  mkTally (total t + d) (found t) (advice t).

(** The returned object literal shared by the three scorers. *)
Definition finish (t : Tally) : AnalysisBlock :=
  mkAnalysisBlock (Z.max 0 (Z.min 100 (Math_round (total t)))) (found t) (advice t).

Definition someIncluded (keywords : list string) (prompt : string) : bool :=
  existsb (fun keyword => includes (toLowerCase prompt) keyword) keywords.

Definition visualKeywords : list string :=
  ["color"; "style"; "lighting"; "composition"; "detailed"; "realistic"; "artistic"].

Definition tallyImage (prompt : string) : Tally :=
  let t := start in
  let t :=
    if String.length prompt <? 50 then
      flag "Image prompt too short" "Add more visual descriptors and details" (-20) t
    else if 200 <? String.length prompt then adjust 10 t
    else t in
  let hasVisualKeywords := someIncluded visualKeywords prompt in
  let t :=
    if negb hasVisualKeywords then
      flag "Missing visual style descriptors" "Specify art style, colors, or lighting" (-15) t
    else adjust 15 t in
  let topicScore := scoreTopicRelevance prompt in
  let t := adjust (inject_Z topicScore * (2 # 10)) t in
  let properNouns := detectProperNouns prompt in
  if 3 <? List.length properNouns then
    flag "Many proper nouns may need pronunciation guide"
         "Consider simplifying technical terms" (-10) t
  else t.

Definition analyzeImage (prompt : string) : AnalysisBlock := finish (tallyImage prompt).

Definition durationKeywords : list string :=
  ["second"; "duration"; "time"; "quick"; "slow"; "smooth"].

Definition tallyVideo (prompt : string) : Tally :=
  let t := start in
  let hasMotion := someIncluded MOTION_VERBS prompt in
  let t :=
    if negb hasMotion then
      flag "No motion described"
           ("Add motion verbs like " ++ quoted "flows" ++ ", " ++ quoted "transitions"
            ++ ", " ++ quoted "zooms") (-25) t
    else adjust 20 t in
  let hasDuration := someIncluded durationKeywords prompt in
  let t :=
    if negb hasDuration then
      flag "Duration unclear"
           ("Specify timing like " ++ quoted "smooth 4-second transition") (-15) t
    else adjust 15 t in
  let hasEngagement := someIncluded TOPIC_engagement prompt in
  let t := if hasEngagement then adjust 10 t else t in
  if String.length prompt <? 30 then
    flag "Video description too brief" "Describe the visual sequence in more detail" (-15) t
  else t.

Definition analyzeVideo (prompt : string) : AnalysisBlock := finish (tallyVideo prompt).

Definition tallyVoice (script : string) : Tally :=
  let t := start in
  let t :=
    if String.length script <? 50 then
      flag "Narration too short" "Expand explanation for better understanding" (-25) t
    else if 500 <? String.length script then
      flag "Narration might be too long for video segment"
           "Consider breaking into shorter segments" (-10) t
    else adjust 15 t in
  let readability := calculateFleschKincaid script in
  let t :=
    if Qlt_bool readability 60 then
      flag "Complex language detected" "Simplify vocabulary and sentence structure" (-20) t
    else if Qlt_bool 80 readability then adjust 15 t
    else t in
  let sentiment := calculateSentiment script in
  let t :=
    if (sentiment <? -2)%Z then
      flag "Negative tone detected" "Use more positive, encouraging language" (-15) t
    else if (2 <? sentiment)%Z then adjust 10 t
    else t in
  let educationalScore := scoreTopicRelevance script in
  let t := adjust (inject_Z educationalScore * (15 # 100)) t in
  let properNouns := detectProperNouns script in
  if 5 <? List.length properNouns then
    flag "Many technical terms may need pronunciation guide"
         "Add phonetic spelling for complex terms" (-10) t
  else t.

Definition analyzeVoice (script : string) : AnalysisBlock := finish (tallyVoice script).

(** Lines 236-240 of analyzePrompt. *)
Definition readinessOf (overallScore : Z) : Readiness :=
  if (80 <=? overallScore)%Z then ProductionReady
  else if (60 <=? overallScore)%Z then Good
  else if (40 <=? overallScore)%Z then NeedsWork
  else Poor.

Definition analyzePrompt (imagePrompt script : string) : PromptAnalysis :=
  let imageAnalysis := analyzeImage imagePrompt in
  let videoAnalysis := analyzeVideo imagePrompt in
  let voiceAnalysis := analyzeVoice script in
  let overallScore :=
    Math_round
      (inject_Z (score imageAnalysis + score videoAnalysis + score voiceAnalysis) / 3) in
  mkPromptAnalysis imageAnalysis videoAnalysis voiceAnalysis
                   (mkOverall overallScore (readinessOf overallScore)).

End PromptAnalyzer.

(* ================================================================== *)
(** ** utils/promptOptimizer.ts *)
(* ================================================================== *)

Module PromptOptimizer.
Import JS.

(** [optimized.toLowerCase().includes(word)]. *)
Definition mentions (optimized word : string) : bool :=
  includes (toLowerCase optimized) word.

Definition visualWords : list string := ["show"; "visualize"; "illustrate"; "display"].
Definition styleKeywords : list string :=
  ["detailed"; "realistic"; "professional"; "clean"; "modern"].

Definition optimizeImagePrompt (prompt : string) : string :=
  if negb (truthy (trim prompt)) then ""
  else
    let optimized := prompt in
    let optimized :=
      if negb (mentions optimized "educational")
      then "Educational content: " ++ optimized
      else optimized in
    let optimized :=
      if negb (existsb (mentions optimized) visualWords)
      then dropLastIf "." optimized ++ ". Visualize this with clear, professional imagery."
      else optimized in
    let hasStyle := existsb (mentions optimized) styleKeywords in
    let optimized :=
      if negb hasStyle
      then optimized ++ " Use detailed, professional style with clean modern design."
      else optimized in
    trim optimized.

Definition motionWords : list string :=
  ["movement"; "animation"; "transition"; "flow"; "dynamic"; "moving"].

Definition optimizeVideoPrompt (prompt : string) : string :=
  if negb (truthy (trim prompt)) then ""
  else
    let optimized := prompt in
    let optimized :=
      if negb (mentions optimized "scene") && negb (mentions optimized "sequence")
      then optimized ++ " Structure as engaging scenes with smooth transitions."
      else optimized in
    let optimized :=
      if negb (existsb (mentions optimized) motionWords)
      then optimized ++ " Include smooth transitions and dynamic movement."
      else optimized in
    let optimized :=
      if negb (mentions optimized "brief") && negb (mentions optimized "quick")
         && negb (mentions optimized "short")
      then optimized ++ " Keep scenes brief for optimal video generation (4-5 seconds each)."
      else optimized in
    trim optimized.

Definition educationalTone : list string :=
  ["learn"; "understand"; "discover"; "explore"; "knowledge"].

Definition narrationClause : string :=
  " Include clear narration that explains key concepts.".
Definition educationalClause : string :=
  " This helps you understand and learn the concept better.".
Definition expansionClause : string :=
  " Provide a clear, detailed explanation of the key ideas and concepts.".

Definition optimizeVoiceScript (script : string) : string :=
  if negb (truthy (trim script)) then ""
  else
    let optimized := script in
    let optimized :=
      if negb (mentions optimized "explain") && negb (mentions optimized "narrat")
      then optimized ++ narrationClause
      else optimized in
    let optimized :=
      if negb (existsb (mentions optimized) educationalTone)
      then optimized ++ educationalClause
      else optimized in
    let optimized :=
      if String.length script <? 50
      then optimized ++ expansionClause
      else optimized in
    trim optimized.

Definition newline : string := String (ascii_of_nat 10) EmptyString.

Definition optimizeFullPrompt (imagePrompt narrationScript : string) : string :=
  let optimizedImage := optimizeImagePrompt imagePrompt in
  let optimizedVideo := optimizeVideoPrompt imagePrompt in
  let optimizedVoice := optimizeVoiceScript narrationScript in
  "IMAGE PROMPT:" ++ newline ++ optimizedImage ++ newline ++ newline ++
  "VIDEO PROMPT:" ++ newline ++ optimizedVideo ++ newline ++ newline ++
  "VOICE SCRIPT:" ++ newline ++ optimizedVoice.

End PromptOptimizer.

(* ================================================================== *)
(** ** The scene collection of the VideoPromptOptimizer component *)
(* ================================================================== *)

Record Scene := mkScene {
  id : string;
  scene_order : Z;
  image_prompt : string;
  narration_script : string;
  analysis : option PromptAnalysis
}.

(** What a handler hands to [toast]. *)
Record Toast := mkToast {
  title : string;
  description : string;
  destructive : bool
}.

Module SceneCollection.
Import JS.

(** [xs.map((x, index) => f x index)], the index counted from [start]. *)
Fixpoint mapIndexFrom {A B : Type} (f : A -> nat -> B) (start : nat) (xs : list A) : list B :=
  match xs with
  | [] => []
  | x :: rest => f x start :: mapIndexFrom f (S start) rest
  end.

Definition mapIndex {A B : Type} (f : A -> nat -> B) (xs : list A) : list B :=
  mapIndexFrom f 0 xs.

Definition withOrder (scene : Scene) (index : nat) : Scene :=
  mkScene (id scene) (Z.of_nat index + 1) (image_prompt scene) (narration_script scene)
          (analysis scene).

(** removeScene: the new value of the [scenes] state and the toast shown. *)
Definition removeScene (sceneId : string) (scenes : list Scene) : list Scene * Toast :=
  if List.length scenes <=? 1 then
    (scenes, mkToast "Cannot Remove" "At least one scene is required" true)
  else
    let filtered := filter (fun s => negb (String.eqb (id s) sceneId)) scenes in
    let newScenes := mapIndex withOrder filtered in
    (newScenes, mkToast "Scene Removed" "Scene removed successfully" false).

Definition csvHeaders : list string := ["scene_order"; "image_prompt"; "narration_script"].

Definition csvField (text : string) : string := quoted (doubleQuotes text).

(** The [csvContent] string that exportToCSV puts in the downloaded file. *)
Definition exportToCSV (scenes : list Scene) : string :=
  join PromptOptimizer.newline
    (join "," csvHeaders ::
     map (fun scene =>
            join "," [numberToString (scene_order scene);
                      csvField (image_prompt scene);
                      csvField (narration_script scene)])
         scenes).

Inductive ImportResult :=
| ImportFailed (message : string)
| ImportSuccessful (newScenes : list Scene).

Definition invalidFormat : string :=
  "Invalid CSV format. Required headers: scene_order, image_prompt, narration_script".

(** The message of the TypeError raised by [lines[0].split] when there is no
    line at all; its text is the engine's. *)
Definition noHeaderLine : string := "Cannot read properties of undefined (reading 'split')".

(** One turn of the loop over the data lines: line number [i], counted from 1. *)
Definition sceneOfLine (now : Z) (line : string) (i : nat) : Scene :=
  let values := map (fun v => stripQuotes (trim v)) (splitChar "," line) in
  mkScene (numberToString (now + Z.of_nat i))
          (numberOr (parseInt (nth 0 values "")) (Z.of_nat i))
          (stringOr (nth_error values 1) "")
          (stringOr (nth_error values 2) "")
          None.

(** The [reader.onload] callback of handleCSVImport on the file's text;
    [now] is the value of [Date.now()]. *)
Definition handleCSVImport (now : Z) (csv : string) : ImportResult :=
  let lines := filter (fun line => truthy (trim line)) (splitChar (ascii_of_nat 10) csv) in
  match lines with
  | [] => ImportFailed noHeaderLine
  | header :: rows =>
      let headers := map trim (splitChar "," header) in
      if negb (arrayIncludes headers "scene_order")
         || negb (arrayIncludes headers "image_prompt")
         || negb (arrayIncludes headers "narration_script")
      then ImportFailed invalidFormat
      else ImportSuccessful (mapIndexFrom (sceneOfLine now) 1 rows)
  end.

(** [scene.analysis?.overall.score || 0]. *)
Definition overallScoreOr0 (scene : Scene) : Z :=
  match analysis scene with
  | Some a => overall_score (overall a)
  | None => 0
  end.

Definition hasAnalysis (scene : Scene) : bool :=
  match analysis scene with Some _ => true | None => false end.

(** getOverallAnalysis: [None] is the [null] result. *)
Definition getOverallAnalysis (scenes : list Scene) : option Overall :=
  let analyzedScenes := filter hasAnalysis scenes in
  if List.length analyzedScenes =? 0 then None
  else
    let totalScore := fold_left (fun sum scene => (sum + overallScoreOr0 scene)%Z) analyzedScenes 0%Z in
    let averageScore :=
      Math_round (inject_Z totalScore / inject_Z (Z.of_nat (List.length analyzedScenes))) in
    let readiness :=
      if (80 <=? averageScore)%Z then ProductionReady
      else if (60 <=? averageScore)%Z then Good
      else if (40 <=? averageScore)%Z then NeedsWork
      else Poor in
    Some (mkOverall averageScore readiness).

(** The triple of a scene that the interchange format carries. *)
Definition triple (scene : Scene) : Z * string * string :=
  (scene_order scene, image_prompt scene, narration_script scene).

End SceneCollection.

(* ================================================================== *)
(** ** The specification's wording, for comparison with the code *)
(* ================================================================== *)

Module Spec.
Import JS.

(** Every character of [s] satisfies [p]. *)
Fixpoint allChars (p : ascii -> bool) (s : string) : bool :=
  match s with
  | EmptyString => true
  | String c s' => p c && allChars p s'
  end.

(** The whitespace-delimited tokens of a text: its maximal runs of
    non-whitespace characters, in order of occurrence. *)
Fixpoint tokens (s : string) : list string :=
  match s with
  | EmptyString => []
  | String c s' =>
      if isWhiteSpace c then tokens s'
      else
        match s' with
        | EmptyString => [String c EmptyString]
        | String d _ =>
            if isWhiteSpace d then String c EmptyString :: tokens s'
            else
              match tokens s' with
              | t :: ts => String c t :: ts
              | [] => [String c EmptyString]
              end
        end
  end.

(** ProperNouns as section 4.1 words it: length above 2, an uppercase first
    character, all remaining characters lowercase, not one of the five
    capitalised determiners. *)
Definition capitalised (word : string) : bool :=
  match word with
  | EmptyString => false
  | String c rest => isUpperLetter c && allChars isLowerLetter rest
  end.

Definition ProperNouns (text : string) : list string :=
  filter (fun word => (2 <? String.length word) && capitalised word
                      && negb (arrayIncludes PromptAnalyzer.properNounStopwords word))
         (tokens text).

(** What detectProperNouns tests instead: a first character that is not a
    lowercase letter, and no uppercase letter after it. *)
Definition caseStable (word : string) : bool :=
  match word with
  | EmptyString => false
  | String c rest =>
      negb (isLowerLetter c) && allChars (fun d => negb (isUpperLetter d)) rest
  end.

(** Readability as section 4.1 words it: sentences are the non-empty
    segments between the marks, words the non-empty whitespace-delimited
    tokens, and the syllables are summed over those words. *)
Definition sentencesOf (text : string) : nat :=
  List.length (filter (fun s => 0 <? String.length s)
                      (splitRuns PromptAnalyzer.isSentenceEnd text)).

Definition syllablesOfWord (word : string) : nat :=
  Nat.max 1 (String.length (keepChars PromptAnalyzer.isVowel word)).

Definition syllablesOf (text : string) : nat :=
  list_sum (map syllablesOfWord (tokens text)).

Definition Readability (text : string) : Q :=
  let sentences := sentencesOf text in
  let words := List.length (tokens text) in
  if (sentences =? 0) || (words =? 0) then 0%Q
  else ((206835 # 1000)
        - (1015 # 1000) * (PromptAnalyzer.ofNat words / PromptAnalyzer.ofNat sentences)
        - (846 # 10) * (PromptAnalyzer.ofNat (syllablesOf text) / PromptAnalyzer.ofNat words))%Q.

(** A piece of a split that holds at least one character. *)
Definition nonEmpty (w : string) : bool := 0 <? String.length w.

(** What one word adds to the sentiment. *)
Definition polarity (word : string) : Z :=
  ((if arrayIncludes PromptAnalyzer.positiveWords word then 1 else 0)
   - (if arrayIncludes PromptAnalyzer.negativeWords word then 1 else 0))%Z.

(** The identifiers of a collection are pairwise different. *)
Fixpoint distinct (ids : list string) : bool :=
  match ids with
  | [] => true
  | x :: rest => negb (existsb (String.eqb x) rest) && distinct rest
  end.

(** A scene carries text in at least one of its two fields. *)
Definition hasText (scene : Scene) : bool :=
  truthy (image_prompt scene) || truthy (narration_script scene).

(** The non-blank lines of a CSV text after its header line. *)
Definition dataLines (csv : string) : list string :=
  tl (filter (fun line => truthy (trim line)) (splitChar (ascii_of_nat 10) csv)).

End Spec.

(* ================================================================== *)
(** ** Sample collections and files *)
(* ================================================================== *)

Module Samples.
Import JS.

(** The collection the component starts with. *)
Definition initialScenes : list Scene := [mkScene "1" 1 "" "" None].

(** Three scenes; the second image prompt holds a comma. *)
Definition threeScenes : list Scene :=
  [mkScene "1" 1 "A calm lake at dawn" "We start at the lake." None;
   mkScene "2" 2 "A red, round apple on a table" "This apple is red." None;
   mkScene "3" 3 "A city skyline at night" "The city never sleeps." None].

(** Three scenes of plain text, the last one still empty. *)
Definition plainScenes : list Scene :=
  [mkScene "1" 1 "A calm lake at dawn" "We start at the lake." None;
   mkScene "2" 2 "A red apple on a table" "This apple is red." None;
   mkScene "3" 3 "" "" None].

(** A scene whose narration quotes a word, and one whose image prompt runs
    over two lines. *)
Definition quotingScene : Scene :=
  mkScene "1" 1 "A teacher at a board" ("She says " ++ quoted "hello" ++ " to the class") None.

Definition twoLineScene : Scene :=
  mkScene "1" 1 ("A river" ++ PromptOptimizer.newline ++ "seen from above") "The river bends." None.

(** A file with the header line and one data line with an order and two
    empty text fields. *)
Definition emptyRowFile : string :=
  "scene_order,image_prompt,narration_script" ++ PromptOptimizer.newline ++ "1,,".

Definition sampleOverall : PromptAnalysis :=
  PromptAnalyzer.analyzePrompt "A detailed city skyline" "We learn about cities.".

End Samples.

(* ================================================================== *)
(** ** The component's editing, history and display functions *)
(* ================================================================== *)

Module Component.
Import JS SceneCollection.

(** The [field] argument of updateScene. *)
Inductive Field := ImagePromptField | NarrationScriptField.

(** The object spread of updateScene: the field replaced, the analysis
    dropped. *)
Definition withField (scene : Scene) (field : Field) (value : string) : Scene :=
  match field with
  | ImagePromptField =>
      mkScene (id scene) (scene_order scene) value (narration_script scene) None
  | NarrationScriptField =>
      mkScene (id scene) (scene_order scene) (image_prompt scene) value None
  end.

(** updateScene: the new value of the [scenes] state. *)
Definition updateScene (sceneId : string) (field : Field) (value : string)
    (prev : list Scene) : list Scene :=
  map (fun scene => if String.eqb (id scene) sceneId then withField scene field value else scene)
      prev.

(** addNewScene: the new value of the [scenes] state; [now] is [Date.now()]. *)
Definition addNewScene (now : Z) (scenes : list Scene) : list Scene :=
  let newScene := mkScene (numberToString now) (Z.of_nat (List.length scenes) + 1) "" "" None in
  scenes ++ [newScene].

Definition hasContent (scene : Scene) : bool :=
  truthy (image_prompt scene) || truthy (narration_script scene).

Definition analyzeScene (scene : Scene) : Scene :=
  if hasContent scene then
    mkScene (id scene) (scene_order scene) (image_prompt scene) (narration_script scene)
            (Some (PromptAnalyzer.analyzePrompt (image_prompt scene) (narration_script scene)))
  else scene.

(** analyzeAllScenes: [scenes] is the collection the handler was created
    with, on which the guard runs; [prev] is the state when the update is
    applied, after the delay. *)
Definition analyzeAllScenes (scenes prev : list Scene) : list Scene * Toast :=
  if forallb (fun s => negb (truthy (image_prompt s)) && negb (truthy (narration_script s))) scenes
  then (prev, mkToast "No Content" "Please add content to at least one scene" true)
  else (map analyzeScene prev,
        mkToast "Analysis Complete" "All scenes have been analyzed successfully" false).

(** The labels of the readiness union. *)
Definition readinessLabel (r : Readiness) : string :=
  match r with
  | ProductionReady => "Production Ready"
  | Good => "Good"
  | NeedsWork => "Needs Work"
  | Poor => "Poor"
  end.

Definition getStatusClasses (status : string) : string :=
  if String.eqb status "Production Ready"
  then "bg-green-100 dark:bg-green-900 text-green-800 dark:text-green-200"
  else if String.eqb status "Good"
  then "bg-blue-100 dark:bg-blue-900 text-blue-800 dark:text-blue-200"
  else if String.eqb status "Needs Work"
  then "bg-yellow-100 dark:bg-yellow-900 text-yellow-800 dark:text-yellow-200"
  else if String.eqb status "Poor"
  then "bg-red-100 dark:bg-red-900 text-red-800 dark:text-red-200"
  else "bg-gray-100 dark:bg-gray-700 text-gray-600 dark:text-gray-400".

Definition getScoreColor (sc : Z) : string :=
  if (80 <=? sc)%Z then "text-green-600 dark:text-green-400"
  else if (60 <=? sc)%Z then "text-blue-600 dark:text-blue-400"
  else if (40 <=? sc)%Z then "text-yellow-600 dark:text-yellow-400"
  else "text-red-600 dark:text-red-400".

(** The word counter under the narration field:
    [trim().split(/\s+/).filter(w => w.length > 0).length]. *)
Definition displayedWordCount (narration : string) : nat :=
  List.length (filter (fun w => 0 <? String.length w)
                      (PromptAnalyzer.splitWhitespace (trim narration))).

(** [xs.slice(start, end)]: a negative index counts from the end, and both
    are clamped to the array. *)
Definition relativeIndex (len x : Z) : Z :=
  if (x <? 0)%Z then Z.max (len + x) 0 else Z.min x len.

Definition slice {A : Type} (xs : list A) (start finish : Z) : list A :=
  let len := Z.of_nat (List.length xs) in
  let k := relativeIndex len start in
  let final := relativeIndex len finish in
  firstn (Z.to_nat (final - k)) (skipn (Z.to_nat k) xs).

(** [xs.slice(start)]. *)
Definition sliceFrom {A : Type} (xs : list A) (start : Z) : list A :=
  slice xs start (Z.of_nat (List.length xs)).

(** [xs[i]]; [None] is undefined. *)
Definition at_ {A : Type} (xs : list A) (i : Z) : option A :=
  if (i <? 0)%Z then None else nth_error xs (Z.to_nat i).

(** The three pieces of state that editing and undo/redo touch.  The deep
    copy through JSON that history entries go through is the identity on
    this data. *)
Record Session := mkSession {
  scenes : list Scene;
  history : list (list Scene);
  historyIndex : Z
}.

Definition maxHistorySize : Z := 50.

(** saveToHistory: the two state updates it queues. *)
Definition saveToHistory (newScenes : list Scene) (s : Session) : Session :=
  let newHistory := (slice (history s) 0 (historyIndex s + 1) ++ [newScenes])%list in
  mkSession (scenes s)
            (sliceFrom newHistory (- maxHistorySize))
            (Z.min (historyIndex s + 1) (maxHistorySize - 1)).

(** The effect that seeds an empty history with the current collection. *)
Definition initializeHistory (s : Session) : Session :=
  if List.length (history s) =? 0 then mkSession (scenes s) [scenes s] 0 else s.

(** A handler that replaces the collection and records it. *)
Definition commit (newScenes : list Scene) (s : Session) : Session :=
  let s' := saveToHistory newScenes s in
  mkSession newScenes (history s') (historyIndex s').

Definition editScene (sceneId : string) (field : Field) (value : string) (s : Session) : Session :=
  commit (updateScene sceneId field value (scenes s)) s.

Definition addScene (now : Z) (s : Session) : Session :=
  commit (addNewScene now (scenes s)) s.

(** removeScene with its history: a refused removal records nothing. *)
Definition dropScene (sceneId : string) (s : Session) : Session :=
  if List.length (scenes s) <=? 1 then s
  else commit (fst (removeScene sceneId (scenes s))) s.

(** undo and redo; [None] is the exception that parsing an undefined entry
    raises. *)
Definition undo (s : Session) : option Session :=
  if (0 <? historyIndex s)%Z then
    match at_ (history s) (historyIndex s - 1) with
    | Some previousState => Some (mkSession previousState (history s) (historyIndex s - 1))
    | None => None
    end
  else Some s.

Definition redo (s : Session) : option Session :=
  if (historyIndex s <? Z.of_nat (List.length (history s)) - 1)%Z then
    match at_ (history s) (historyIndex s + 1) with
    | Some nextState => Some (mkSession nextState (history s) (historyIndex s + 1))
    | None => None
    end
  else Some s.

End Component.

(* ================================================================== *)
(** ** Predicates for the properties of the component *)
(* ================================================================== *)

Module Invariants.
Import JS SceneCollection Component.

(** An attached analysis is the analysis of the text the scene holds now. *)
Definition freshScene (scene : Scene) : Prop :=
  analysis scene = None \/
  analysis scene
  = Some (PromptAnalyzer.analyzePrompt (image_prompt scene) (narration_script scene)).

Definition fresh (scenes : list Scene) : Prop := Forall freshScene scenes.

(** The orders of a collection are 1, 2, ..., n. *)
Fixpoint denseFrom (k : Z) (scenes : list Scene) : bool :=
  match scenes with
  | [] => true
  | s :: rest => (scene_order s =? k)%Z && denseFrom (k + 1) rest
  end.

Definition dense (scenes : list Scene) : bool := denseFrom 1 scenes.

(** A text that the CSV line format carries unharmed: no comma, no
    quotation mark, no line feed; and a scene with two such texts and an
    order that is a positive safe integer (below 2^53). *)
Definition plainChar (c : ascii) : bool :=
  negb (Ascii.eqb c ",") && negb (Ascii.eqb c dquote) && negb (Ascii.eqb c (ascii_of_nat 10)).

Definition plainText (text : string) : bool := Spec.allChars plainChar text.

Definition plainScene (scene : Scene) : bool :=
  plainText (image_prompt scene) && plainText (narration_script scene)
  && (0 <? scene_order scene)%Z && (scene_order scene <? 9007199254740992)%Z.

(** The history holds between 1 and 50 entries, the index points into it,
    and the entry it points at is the current collection. *)
Definition settled (s : Session) : Prop :=
  (0 <= historyIndex s < Z.of_nat (List.length (history s)))%Z /\
  (Z.of_nat (List.length (history s)) <= maxHistorySize)%Z /\
  at_ (history s) (historyIndex s) = Some (scenes s).

(** The shape of a keyword: its first, respectively last, character
    satisfies [p]. *)
Definition firstSatisfies (p : ascii -> bool) (kw : string) : bool :=
  match kw with
  | EmptyString => false
  | String k _ => p k
  end.

Fixpoint lastSatisfies (p : ascii -> bool) (kw : string) : bool :=
  match kw with
  | EmptyString => false
  | String k rest =>
      match rest with
      | EmptyString => p k
      | String _ _ => lastSatisfies p rest
      end
  end.

Definition visible (c : ascii) : bool := negb (isWhiteSpace c).
Definition notStop (c : ascii) : bool := negb (Ascii.eqb c ".").

(** A keyword that neither trimming nor the removal of a final full stop
    can cut. *)
Definition solid (kw : string) : bool :=
  firstSatisfies visible kw && lastSatisfies visible kw && lastSatisfies notStop kw.

(** The signals each optimizer looks for. *)
Definition imageSignals (x : string) : Prop :=
  PromptOptimizer.mentions x "educational" = true /\
  existsb (PromptOptimizer.mentions x) PromptOptimizer.visualWords = true /\
  existsb (PromptOptimizer.mentions x) PromptOptimizer.styleKeywords = true.

Definition videoSignals (x : string) : Prop :=
  PromptOptimizer.mentions x "scene" || PromptOptimizer.mentions x "sequence" = true /\
  existsb (PromptOptimizer.mentions x) PromptOptimizer.motionWords = true /\
  PromptOptimizer.mentions x "brief" || PromptOptimizer.mentions x "quick" || PromptOptimizer.mentions x "short" = true.

Definition voiceSignals (x : string) : Prop :=
  PromptOptimizer.mentions x "explain" || PromptOptimizer.mentions x "narrat" = true /\
  existsb (PromptOptimizer.mentions x) PromptOptimizer.educationalTone = true.

(** Every analysed scene of the collection has an overall score between
    [lo] and [hi]. *)
Definition overallWithin (lo hi : Z) (scene : Scene) : bool :=
  match analysis scene with
  | Some a => (lo <=? overall_score (overall a))%Z && (overall_score (overall a) <=? hi)%Z
  | None => true
  end.

(** What the interchange format does not carry of a scene stays with it
    through renumbering: everything but the order. *)
Definition unordered (scene : Scene) : string * string * string * option PromptAnalysis :=
  (id scene, image_prompt scene, narration_script scene, analysis scene).

(** The colour names of the score and badge classes. *)
Definition colours : list string := ["green"; "blue"; "yellow"; "red"].

(** A decimal digit. *)
Definition isDigit (c : ascii) : bool := (48 <=? code c) && (code c <=? 57).

(** [after] is a settled session from which undo leads back to the
    collection of [before], and redo from there to [after] again. *)
Definition undoes (before after : Session) : Prop :=
  settled after /\
  exists u, undo after = Some u /\ scenes u = scenes before /\ settled u /\
            redo u = Some after.

(** One data line of the exported file, and the test that a character is
    not a given separator. *)
Definition csvLine (scene : Scene) : string :=
  join "," [numberToString (scene_order scene);
            SceneCollection.csvField (image_prompt scene);
            SceneCollection.csvField (narration_script scene)].

Definition isNot (sep c : ascii) : bool := negb (Ascii.eqb c sep).

(** The header test of handleCSVImport on a header line. *)
Definition headerRejected (header : string) : bool :=
  let headers := map trim (splitChar "," header) in
  negb (arrayIncludes headers "scene_order")
  || negb (arrayIncludes headers "image_prompt")
  || negb (arrayIncludes headers "narration_script").

(** Text made of ASCII characters only: there toLowerCase and toUpperCase
    are the letter-wise maps of the embedding. *)
Definition asciiChar (c : ascii) : bool := code c <? 128.
Definition asciiText (s : string) : bool := Spec.allChars asciiChar s.

(** Further samples. *)
Definition oneRowFile : string :=
  "scene_order,image_prompt,narration_script" ++ PromptOptimizer.newline
  ++ "1,A calm lake at dawn,We start at the lake.".

(** The collection after importing [oneRowFile] at time 1000 (the row gets
    the id 1000 + 1) and adding a scene at time 1001 (the new scene gets the
    id 1001). *)
Definition sharedIdScenes : list Scene :=
  match handleCSVImport 1000 oneRowFile with
  | ImportSuccessful imported => addNewScene 1001 imported
  | ImportFailed _ => []
  end.

Definition analysedScene : Scene :=
  mkScene "7" 1 "A detailed city skyline" "We learn about cities."
          (Some (PromptAnalyzer.analyzePrompt "A detailed city skyline" "We learn about cities.")).

Definition startSession : Session :=
  mkSession Samples.plainScenes [Samples.plainScenes] 0.

End Invariants.

(* ================================================================== *)
(** ** Rounding and clamping *)
(* ================================================================== *)

Section Rounding.
Import JS.

Lemma Math_round_Z (z : Z) : Math_round (inject_Z z) = z.
Proof.
  unfold Math_round, Qfloor, Qplus, inject_Z; cbn.
  replace (z * 2 + 1)%Z with (1 + z * 2)%Z by ring.
  rewrite Z.div_add by discriminate. reflexivity.
Qed.

Lemma Math_round_mono (x y : Q) : (x <= y)%Q -> (Math_round x <= Math_round y)%Z.
Proof.
  intro H. unfold Math_round. apply Qfloor_resp_le.
  apply Qplus_le_compat; [exact H | apply Qle_refl].
Qed.

Lemma Math_round_comp (x y : Q) : (x == y)%Q -> Math_round x = Math_round y.
Proof.
  intro H. unfold Math_round. apply Qfloor_comp. rewrite H. reflexivity.
Qed.

(** Rounding and clamping to [0,100] commute: the order in which the source
    applies them and the order of the specification give one value. *)
Lemma clamp_round_commute (x : Q) :
  Z.max 0 (Z.min 100 (Math_round x)) = Math_round (Qmax 0 (Qmin 100 x)).
Proof.
  assert (R0 : Math_round 0 = 0%Z) by reflexivity.
  assert (R100 : Math_round 100 = 100%Z) by reflexivity.
  destruct (Qlt_le_dec x 100) as [Hlt | Hge].
  - assert (Hmin : (Qmin 100 x == x)%Q) by (apply Q.min_r, Qlt_le_weak, Hlt).
    assert (Hup : (Math_round x <= 100)%Z)
      by (rewrite <- R100; apply Math_round_mono, Qlt_le_weak, Hlt).
    destruct (Qlt_le_dec x 0) as [Hneg | Hpos].
    + assert (Hlo : (Math_round x <= 0)%Z)
        by (rewrite <- R0; apply Math_round_mono, Qlt_le_weak, Hneg).
      rewrite (Math_round_comp (Qmax 0 (Qmin 100 x)) 0).
      * rewrite R0. lia.
      * rewrite Hmin. apply Q.max_l, Qlt_le_weak, Hneg.
    + assert (Hlo : (0 <= Math_round x)%Z)
        by (rewrite <- R0; apply Math_round_mono, Hpos).
      rewrite (Math_round_comp (Qmax 0 (Qmin 100 x)) x).
      * lia.
      * rewrite Hmin. apply Q.max_r, Hpos.
  - assert (Hup : (100 <= Math_round x)%Z)
      by (rewrite <- R100; apply Math_round_mono, Hge).
    rewrite (Math_round_comp (Qmax 0 (Qmin 100 x)) 100).
    + rewrite R100. lia.
    + rewrite (Q.min_l 100 x Hge). apply Q.max_r. discriminate.
Qed.

(** The rounded mean of three integers, in integer arithmetic. *)
Lemma Math_round_thirds (s : Z) : Math_round (inject_Z s / 3) = ((2 * s + 3) / 6)%Z.
Proof.
  unfold Math_round, Qfloor, Qplus, Qdiv, Qmult, Qinv, inject_Z; cbn.
  change (match s with 0 => 0 | Z.pos y' => Z.pos y'~0 | Z.neg y' => Z.neg y'~0 end)%Z
    with (2 * s)%Z.
  f_equal. ring.
Qed.

Lemma finish_range (t : PromptAnalyzer.Tally) :
  (0 <= score (PromptAnalyzer.finish t) <= 100)%Z.
Proof. unfold PromptAnalyzer.finish; cbn. lia. Qed.

End Rounding.

(* ================================================================== *)
(** ** The analysis entry point *)
(* ================================================================== *)

Section Analyze.
Import JS PromptAnalyzer.

Lemma readinessOf_spec (s : Z) :
  (readinessOf s = ProductionReady <-> (80 <= s)%Z) /\
  (readinessOf s = Good <-> (60 <= s < 80)%Z) /\
  (readinessOf s = NeedsWork <-> (40 <= s < 60)%Z) /\
  (readinessOf s = Poor <-> (s < 40)%Z).
Proof.
  unfold readinessOf.
  destruct (Z.leb_spec 80 s); [| destruct (Z.leb_spec 60 s); [| destruct (Z.leb_spec 40 s)]];
    (split; [| split; [| split]]); (split; intro); try discriminate; try reflexivity; lia.
Qed.

(** C1: for every pair of input strings, analyze returns four scores
    (image, video, voice, overall), each an integer between 0 and 100, and
    each dimension score is round(max(0, min(100, raw))) of the scorer's raw
    additive total. *)
Theorem analyze_scores_in_range : forall imageText narrationText : string,
  let a := analyzePrompt imageText narrationText in
  (0 <= score (image a) <= 100)%Z /\
  (0 <= score (video a) <= 100)%Z /\
  (0 <= score (voice a) <= 100)%Z /\
  (0 <= overall_score (overall a) <= 100)%Z /\
  score (image a) = Math_round (Qmax 0 (Qmin 100 (total (tallyImage imageText)))) /\
  score (video a) = Math_round (Qmax 0 (Qmin 100 (total (tallyVideo imageText)))) /\
  score (voice a) = Math_round (Qmax 0 (Qmin 100 (total (tallyVoice narrationText)))).
Proof.
  intros imageText narrationText a.
  pose proof (finish_range (tallyImage imageText)) as Hi.
  pose proof (finish_range (tallyVideo imageText)) as Hv.
  pose proof (finish_range (tallyVoice narrationText)) as Ho.
  assert (Hall : (0 <= overall_score (overall a) <= 100)%Z).
  { subst a. unfold analyzePrompt; cbn [overall overall_score].
    rewrite Math_round_thirds.
    fold (analyzeImage imageText) in Hi. fold (analyzeVideo imageText) in Hv.
    fold (analyzeVoice narrationText) in Ho.
    set (n := (score (analyzeImage imageText) + score (analyzeVideo imageText)
               + score (analyzeVoice narrationText))%Z).
    assert (0 <= n <= 300)%Z by (subst n; lia).
    pose proof (Z.div_mod (2 * n + 3) 6 ltac:(discriminate)) as Hd.
    pose proof (Z.mod_pos_bound (2 * n + 3) 6 ltac:(reflexivity)) as Hm.
    lia. }
  repeat split; try (subst a; cbn; lia); try apply Hall;
    subst a; unfold analyzePrompt; cbn [image video voice score];
    unfold analyzeImage, analyzeVideo, analyzeVoice, finish; cbn [score];
    apply clamp_round_commute.
Qed.

(** C2: for every pair of input strings, overall.score is
    round((image.score + video.score + voice.score) / 3), the integer nearest
    to the mean, and overall.readiness is the step function of that score
    with inclusive lower bounds 80, 60 and 40; at 80, 79, 60, 59, 40 and 39
    the labels are Production Ready, Good, Good, Needs Work, Needs Work and
    Poor. *)
Theorem analyze_overall_readiness : forall imageText narrationText : string,
  let a := analyzePrompt imageText narrationText in
  let sum := (score (image a) + score (video a) + score (voice a))%Z in
  let s := overall_score (overall a) in
  s = Math_round (inject_Z sum / 3) /\
  (3 * s - 1 <= sum <= 3 * s + 1)%Z /\
  (readiness (overall a) = ProductionReady <-> (80 <= s)%Z) /\
  (readiness (overall a) = Good <-> (60 <= s < 80)%Z) /\
  (readiness (overall a) = NeedsWork <-> (40 <= s < 60)%Z) /\
  (readiness (overall a) = Poor <-> (s < 40)%Z) /\
  readiness (overall a) = readinessOf s /\
  readinessOf 80 = ProductionReady /\ readinessOf 79 = Good /\
  readinessOf 60 = Good /\ readinessOf 59 = NeedsWork /\
  readinessOf 40 = NeedsWork /\ readinessOf 39 = Poor.
Proof.
  intros imageText narrationText a sum s.
  assert (Hs : s = Math_round (inject_Z sum / 3)) by reflexivity.
  assert (Hr : readiness (overall a) = readinessOf s) by reflexivity.
  split; [exact Hs |].
  split.
  { rewrite Hs, Math_round_thirds.
    pose proof (Z.div_mod (2 * sum + 3) 6 ltac:(discriminate)) as Hd.
    pose proof (Z.mod_pos_bound (2 * sum + 3) 6 ltac:(reflexivity)) as Hm.
    lia. }
  rewrite Hr.
  destruct (readinessOf_spec s) as (H1 & H2 & H3 & H4).
  split; [exact H1 |]. split; [exact H2 |]. split; [exact H3 |]. split; [exact H4 |].
  repeat (split; [reflexivity |]). reflexivity.
Qed.

(** The scenario of section 8: visual keywords and three topic matches lift
    the image score to 71, motion, duration and engagement matches lift the
    video score to 95, the narration scores 48, and the mean 71 is Good. *)
Example analyze_scenario :
  let a := analyzePrompt
             "A detailed, realistic illustration of a cell dividing, with vibrant colors and smooth zoom transitions taking 4 seconds."
             "Today we will learn how cells divide. This process helps you understand the basics of biology." in
  (score (image a), score (video a), score (voice a), overall a)
  = (71%Z, 95%Z, 48%Z, mkOverall 71 Good).
Proof. reflexivity. Qed.

(** The empty input is scored like any other: the length rules fire and the
    scores stay inside the range. *)
Example analyze_empty :
  let a := analyzePrompt "" "" in
  (score (image a), score (video a), score (voice a), overall a)
  = (15%Z, 0%Z, 5%Z, mkOverall 7 Poor)
  /\ issues (video a) = ["No motion described"; "Duration unclear"; "Video description too brief"].
Proof. split; reflexivity. Qed.

End Analyze.

(* ================================================================== *)
(** ** Facts about the string primitives *)
(* ================================================================== *)

Section Strings.
Import JS Spec.

Lemma whitespace_not_upper (c : ascii) : isWhiteSpace c = true -> isUpperLetter c = false.
Proof.
  destruct c as [[] [] [] [] [] [] [] []]; intro H; (reflexivity || discriminate H).
Qed.

Lemma toLowerChar_whitespace (c : ascii) : isWhiteSpace c = true -> toLowerChar c = c.
Proof.
  intro H. unfold toLowerChar. now rewrite (whitespace_not_upper c H).
Qed.

Lemma trimStart_blank (s : string) : allChars isWhiteSpace s = true -> trimStart s = "".
Proof.
  induction s as [| c s IH]; cbn; [reflexivity |].
  intro H. apply andb_true_iff in H as [Hc Hs]. rewrite Hc. auto.
Qed.

Lemma trim_blank (s : string) : allChars isWhiteSpace s = true -> trim s = "".
Proof. intro H. unfold trim. now rewrite (trimStart_blank s H). Qed.

Lemma trimEnd_empty (s : string) : trimEnd s = "" -> allChars isWhiteSpace s = true.
Proof.
  induction s as [| c s IH]; cbn; [reflexivity |].
  destruct (trimEnd s) eqn:E; [| discriminate].
  destruct (isWhiteSpace c); [auto | discriminate].
Qed.

Lemma trimStart_blank_inv (s : string) :
  allChars isWhiteSpace (trimStart s) = true -> allChars isWhiteSpace s = true.
Proof.
  induction s as [| c s IH]; cbn; [reflexivity |].
  destruct (isWhiteSpace c) eqn:E; cbn; [exact IH |].
  rewrite E. discriminate.
Qed.

Lemma trim_empty (s : string) : trim s = "" -> allChars isWhiteSpace s = true.
Proof. intro H. apply trimStart_blank_inv, trimEnd_empty, H. Qed.

Lemma truthy_trim_false (s : string) :
  truthy (trim s) = false -> allChars isWhiteSpace s = true.
Proof.
  intro H. apply trim_empty. destruct (trim s); [reflexivity | discriminate].
Qed.

Lemma toLowerCase_app (s t : string) :
  toLowerCase (s ++ t) = toLowerCase s ++ toLowerCase t.
Proof. induction s as [| c s IH]; cbn; [reflexivity | now rewrite IH]. Qed.

Lemma startsWith_app (p s t : string) :
  startsWith p s = true -> startsWith p (s ++ t) = true.
Proof.
  revert s. induction p as [| a p IH]; intros s H; [reflexivity |].
  destruct s as [| b s]; cbn in *; [discriminate |].
  apply andb_true_iff in H as [Hab Hp]. rewrite Hab. cbn. auto.
Qed.

Lemma includes_app (s t kw : string) :
  includes s kw = true -> includes (s ++ t) kw = true.
Proof.
  induction s as [| c s IH]; cbn; intro H.
  - rewrite orb_false_r in H. destruct kw; [| discriminate].
    destruct t; reflexivity.
  - apply orb_true_iff in H as [H | H].
    + change (String c (s ++ t)) with (String c s ++ t).
      now rewrite (startsWith_app kw (String c s) t H).
    + rewrite (IH H). apply orb_true_r.
Qed.

(** A keyword that starts with a visible character does not occur in a
    blank text. *)
Lemma includes_blank (s kw : string) (k : ascii) :
  allChars isWhiteSpace s = true -> isWhiteSpace k = false ->
  includes (toLowerCase s) (String k kw) = false.
Proof.
  intros Hs Hk. induction s as [| c s IH]; cbn; [reflexivity |].
  cbn in Hs. apply andb_true_iff in Hs as [Hc Hs].
  rewrite (toLowerChar_whitespace c Hc), (IH Hs), orb_false_r.
  destruct (Ascii.eqb_spec k c) as [-> |]; [congruence | reflexivity].
Qed.

End Strings.

(* ================================================================== *)
(** ** The optimizer *)
(* ================================================================== *)

Section Optimizer.
Import JS Spec PromptOptimizer.

Lemma mentions_app (s t kw : string) :
  mentions s kw = true -> mentions (s ++ t) kw = true.
Proof.
  unfold mentions. rewrite toLowerCase_app. apply includes_app.
Qed.

Lemma mentions_visible (s kw : string) (k : ascii) :
  isWhiteSpace k = false -> mentions s (String k kw) = true -> truthy (trim s) = true.
Proof.
  intros Hk Hm. destruct (truthy (trim s)) eqn:E; [reflexivity |].
  unfold mentions in Hm.
  now rewrite (includes_blank s kw k (truthy_trim_false s E) Hk) in Hm.
Qed.

Lemma educationalTone_visible (s : string) :
  existsb (mentions s) educationalTone = true -> truthy (trim s) = true.
Proof.
  intro H. apply existsb_exists in H as (kw & Hin & Hm).
  cbn in Hin.
  repeat (destruct Hin as [<- | Hin];
          [eapply mentions_visible; [| exact Hm]; reflexivity |]).
  contradiction.
Qed.

Lemma educationalTone_app (s t : string) :
  existsb (mentions s) educationalTone = true ->
  existsb (mentions (s ++ t)) educationalTone = true.
Proof.
  intro H. apply existsb_exists in H as (kw & Hin & Hm).
  apply existsb_exists. exists kw. split; [exact Hin | now apply mentions_app].
Qed.



(** C4, as the code has it: for every string s of length at least 50 that
    contains an educational-tone keyword, optimizeVoiceScript appends neither
    the understanding/learning clause nor the expansion clause; it returns s
    with its surrounding whitespace trimmed when s also mentions explain or
    narrat, and otherwise s followed by the narration clause. *)
Theorem optimizeVoiceScript_keeps_text : forall s : string,
  50 <= String.length s ->
  existsb (mentions s) educationalTone = true ->
  optimizeVoiceScript s =
    trim (if mentions s "explain" || mentions s "narrat" then s else s ++ narrationClause).
Proof.
  intros s Hlen Hedu. unfold optimizeVoiceScript.
  rewrite (educationalTone_visible s Hedu). cbn [negb].
  assert (Hshort : (String.length s <? 50) = false) by (apply Nat.ltb_ge; exact Hlen).
  rewrite Hshort.
  destruct (mentions s "explain") eqn:E1; cbn [negb andb orb].
  - now rewrite Hedu.
  - destruct (mentions s "narrat") eqn:E2; cbn [negb].
    + now rewrite Hedu.
    + now rewrite (educationalTone_app s narrationClause Hedu).
Qed.

Lemma optimizeVoiceScript_keeps_text_witness :
  let s := "This narration helps you learn how a single cell divides in two." in
  50 <= String.length s /\
  existsb (mentions s) educationalTone = true /\
  optimizeVoiceScript s = s.
Proof.
  split; [vm_compute; lia | split; [reflexivity |]].
  apply (optimizeVoiceScript_keeps_text
           "This narration helps you learn how a single cell divides in two.");
    [vm_compute; lia | reflexivity].
Defined.

(** C4 as stated fails: a 54-character narration that contains the keyword
    learn comes back with the narration clause appended. *)
Lemma optimizeVoiceScript_appends_narration :
  let s := "We learn how plants make food from sunlight and water." in
  50 <= String.length s /\
  existsb (mentions s) educationalTone = true /\
  optimizeVoiceScript s = s ++ " Include clear narration that explains key concepts." /\
  optimizeVoiceScript s <> s.
Proof.
  split; [vm_compute; lia |].
  split; [reflexivity |].
  split; [reflexivity |].
  vm_compute. discriminate.
Qed.

End Optimizer.

(* ================================================================== *)
(** ** Tokens, proper nouns and readability *)
(* ================================================================== *)

Section Features.
Import JS Spec PromptAnalyzer.

Lemma splitRunsFrom_cons (sep : ascii -> bool) (b : bool) (s : string) :
  exists piece rest, splitRunsFrom sep b s = piece :: rest.
Proof.
  revert b. induction s as [| c s IH]; intro b; cbn.
  - eauto.
  - destruct (sep c).
    + destruct b; [apply IH | eauto].
    + destruct (IH false) as (p & r & ->). eauto.
Qed.

(** A split that starts on a visible character starts with a piece that
    holds it. *)
Lemma splitRunsFrom_visible (sep : ascii -> bool) (b : bool) (c : ascii) (s : string) :
  sep c = false ->
  exists piece rest, splitRunsFrom sep b (String c s) = String c piece :: rest.
Proof.
  intro H. cbn. rewrite H.
  destruct (splitRunsFrom_cons sep false s) as (p & r & ->). eauto.
Qed.

Lemma tokens_break (c d : ascii) (s : string) :
  isWhiteSpace c = false -> isWhiteSpace d = true ->
  tokens (String c (String d s)) = String c "" :: tokens (String d s).
Proof. intros Hc Hd. cbn. now rewrite Hc, Hd. Qed.

Lemma tokens_grow (c d : ascii) (s : string) :
  isWhiteSpace c = false -> isWhiteSpace d = false ->
  tokens (String c (String d s)) =
  match tokens (String d s) with
  | t :: ts => String c t :: ts
  | [] => [String c ""]
  end.
Proof. intros Hc Hd. cbn. now rewrite Hc, Hd. Qed.

(** The non-empty pieces of [text.split(/\s+/)] are the tokens of the text. *)
Lemma tokens_split (b : bool) (s : string) :
  filter nonEmpty (splitRunsFrom isWhiteSpace b s) = tokens s.
Proof.
  revert b. induction s as [| c s IH]; intro b; [reflexivity |].
  destruct (isWhiteSpace c) eqn:Ec.
  - cbn. rewrite Ec. destruct b; [apply IH | cbn; apply IH].
  - destruct s as [| d s]; [cbn; now rewrite Ec |].
    destruct (isWhiteSpace d) eqn:Ed.
    + rewrite (tokens_break c d s Ec Ed), <- (IH true).
      cbn. now rewrite Ec, Ed.
    + rewrite (tokens_grow c d s Ec Ed), <- (IH false).
      destruct (splitRunsFrom_visible isWhiteSpace false d s Ed) as (p & r & E).
      cbn [splitRunsFrom] in E |- *. rewrite Ec, E. reflexivity.
Qed.

Lemma filter_through {A : Type} (p q : A -> bool) (l : list A) :
  (forall x, p x = true -> q x = true) -> filter p l = filter p (filter q l).
Proof.
  intro H. induction l as [| x l IH]; cbn; [reflexivity |].
  destruct (p x) eqn:Ep.
  - rewrite (H x Ep). cbn. rewrite Ep. now f_equal.
  - destruct (q x); cbn; [rewrite Ep |]; exact IH.
Qed.

Lemma toUpperChar_fixed (c : ascii) :
  Ascii.eqb c (toUpperChar c) = negb (isLowerLetter c).
Proof. destruct c as [[] [] [] [] [] [] [] []]; reflexivity. Qed.

Lemma toLowerChar_fixed (c : ascii) :
  Ascii.eqb c (toLowerChar c) = negb (isUpperLetter c).
Proof. destruct c as [[] [] [] [] [] [] [] []]; reflexivity. Qed.

Lemma toLowerCase_fixed (s : string) :
  String.eqb s (toLowerCase s) = allChars (fun d => negb (isUpperLetter d)) s.
Proof.
  induction s as [| c s IH]; cbn; [reflexivity |].
  rewrite toLowerChar_fixed, IH. reflexivity.
Qed.

Lemma isProperNoun_caseStable (word : string) :
  isProperNoun word =
  (2 <? String.length word) && caseStable word
  && negb (arrayIncludes properNounStopwords word).
Proof.
  unfold isProperNoun. destruct word as [| c rest]; [reflexivity |].
  cbn [charAt0 slice1 toUpperCase caseStable String.eqb].
  rewrite toUpperChar_fixed, toLowerCase_fixed.
  destruct (isLowerLetter c), (2 <? String.length (String c rest)),
    (allChars (fun d => negb (isUpperLetter d)) rest),
    (arrayIncludes properNounStopwords (String c rest)); reflexivity.
Qed.

(** What the two comparisons of detectProperNouns select on ASCII text, in
    order of occurrence: the whitespace-delimited tokens of length above 2
    whose first character equals its own upper-casing and whose remaining
    characters equal their own lower-casing, The, A, An, This and That
    excluded. *)
Lemma detectProperNouns_tokens : forall text : string,
  detectProperNouns text =
  filter (fun word => (2 <? String.length word) && caseStable word
                      && negb (arrayIncludes properNounStopwords word))
         (tokens text).
Proof.
  intro text. unfold detectProperNouns, splitWhitespace, splitRuns.
  rewrite (filter_through isProperNoun nonEmpty).
  - rewrite tokens_split. apply filter_ext, isProperNoun_caseStable.
  - intros w H. unfold isProperNoun in H. unfold nonEmpty.
    destruct w; [discriminate | reflexivity].
Qed.

(** C8 at the text 1st place: the token 1st begins with a digit, not with
    an uppercase character, so ProperNouns as the specification words it
    selects nothing; the comparison word[0] === word[0].toUpperCase() holds
    of the digit and detectProperNouns returns the token. *)
Theorem detectProperNouns_digit_first :
  detectProperNouns "1st place" = ["1st"] /\
  Spec.ProperNouns "1st place" = [] /\
  detectProperNouns "1st place" <> Spec.ProperNouns "1st place".
Proof. repeat split; discriminate. Qed.

Lemma capitalised_caseStable (word : string) :
  capitalised word = true -> caseStable word = true.
Proof.
  destruct word as [| c rest]; [discriminate |]. cbn.
  intro H. apply andb_true_iff in H as [Hc Hrest].
  apply andb_true_iff; split.
  - revert Hc. clear. destruct c as [[] [] [] [] [] [] [] []]; vm_compute; congruence.
  - clear - Hrest. induction rest as [| d rest IH]; [reflexivity |].
    cbn in *. apply andb_true_iff in Hrest as [Hd Hrest].
    rewrite (IH Hrest), andb_true_r.
    revert Hd. clear. destruct d as [[] [] [] [] [] [] [] []]; vm_compute; congruence.
Qed.

(** Every token the wording selects is one the code returns. *)
Lemma ProperNouns_detected (text word : string) :
  In word (Spec.ProperNouns text) -> In word (detectProperNouns text).
Proof.
  unfold Spec.ProperNouns, detectProperNouns, splitWhitespace, splitRuns.
  rewrite !filter_In, <- (tokens_split false text), filter_In.
  intros [[Hin _] H]. split; [exact Hin |].
  apply andb_true_iff in H as [H Hstop]. apply andb_true_iff in H as [Hlen Hcap].
  rewrite isProperNoun_caseStable, Hlen, Hstop, (capitalised_caseStable word Hcap).
  reflexivity.
Qed.

Lemma fold_left_add (f : string -> nat) (l : list string) (n : nat) :
  fold_left (fun count word => count + f word) l n = n + list_sum (map f l).
Proof.
  revert n. induction l as [| w l IH]; intro n; [cbn; lia |].
  cbn [fold_left map]. rewrite IH.
  change (list_sum (f w :: map f l)) with (f w + list_sum (map f l)). lia.
Qed.

Lemma list_sum_cons (n : nat) (l : list nat) : list_sum (n :: l) = n + list_sum l.
Proof. reflexivity. Qed.

Lemma list_sum_nonEmpty (l : list string) :
  list_sum (map syllablesOfWord l) =
  list_sum (map syllablesOfWord (filter nonEmpty l))
  + List.length (filter (fun w => negb (nonEmpty w)) l).
Proof.
  induction l as [| w l IH]; [reflexivity |].
  cbn [map filter]. rewrite list_sum_cons, IH. destruct w as [| c w].
  - change (nonEmpty "") with false. cbn [negb List.length]. cbn. lia.
  - change (nonEmpty (String c w)) with true. cbn [negb map].
    rewrite list_sum_cons. lia.
Qed.

(** What calculateFleschKincaid counts: the words are the tokens, but every
    empty piece of the split (one before leading and one after trailing
    whitespace) adds a syllable of its own. *)
Lemma syllableCount_pieces (text : string) :
  wordCount text = List.length (tokens text) /\
  syllableCount text =
    syllablesOf text
    + List.length (filter (fun w => negb (nonEmpty w)) (splitWhitespace text)).
Proof.
  unfold wordCount, syllableCount, syllablesOf, splitWhitespace, splitRuns.
  split.
  - change (fun w => 0 <? String.length w) with nonEmpty. now rewrite tokens_split.
  - rewrite (fold_left_add syllablesOfWord), list_sum_nonEmpty, tokens_split. lia.
Qed.

(** C5 at a text with a leading space: the split yields an empty first piece,
    which the syllable count takes for a one-syllable word.  The code
    computes 206.835 - 1.015 * (2/1) - 84.6 * (3/2) = 77.905 where the formula
    of the specification, with 2 syllables in 2 words, gives 120.205. *)
Theorem calculateFleschKincaid_leading_space :
  let text := " Go on." in
  splitWhitespace text = [""; "Go"; "on."] /\
  sentenceCount text = 1 /\ sentencesOf text = 1 /\
  wordCount text = 2 /\ List.length (tokens text) = 2 /\
  syllableCount text = 3 /\ syllablesOf text = 2 /\
  (calculateFleschKincaid text == 77905 # 1000)%Q /\
  (Spec.Readability text == 120205 # 1000)%Q /\
  ~ (calculateFleschKincaid text == Spec.Readability text)%Q.
Proof.
  repeat (split; [reflexivity |]).
  vm_compute. discriminate.
Qed.

End Features.

(* ================================================================== *)
(** ** The scene collection *)
(* ================================================================== *)

Section Collection.
Import JS Spec SceneCollection Samples.

Lemma mapIndexFrom_length {A B : Type} (f : A -> nat -> B) (n : nat) (xs : list A) :
  List.length (mapIndexFrom f n xs) = List.length xs.
Proof.
  revert n. induction xs as [| x xs IH]; intro n; cbn; [reflexivity | now rewrite IH].
Qed.

Lemma filter_split_length {A : Type} (p : A -> bool) (l : list A) :
  List.length (filter p l) + List.length (filter (fun x => negb (p x)) l) = List.length l.
Proof.
  induction l as [| x l IH]; cbn; [reflexivity |].
  destruct (p x); cbn; lia.
Qed.

Lemma absent_id_filter (x : string) (l : list Scene) :
  existsb (String.eqb x) (map id l) = false ->
  filter (fun s => String.eqb (id s) x) l = [].
Proof.
  induction l as [| s l IH]; cbn; [reflexivity |].
  intro H. apply orb_false_iff in H as [Hs Hl].
  rewrite String.eqb_sym, Hs. auto.
Qed.

(** With pairwise different identifiers at most one scene carries a given
    one. *)
Lemma distinct_at_most_one (x : string) (l : list Scene) :
  distinct (map id l) = true ->
  List.length (filter (fun s => String.eqb (id s) x) l) <= 1.
Proof.
  induction l as [| s l IH]; cbn; [lia |].
  intro H. apply andb_true_iff in H as [Hs Hl].
  destruct (String.eqb_spec (id s) x) as [E | _]; [| auto].
  subst x. apply negb_true_iff in Hs. rewrite (absent_id_filter _ _ Hs). cbn. lia.
Qed.

(** What the guard of removeScene gives: on a collection of exactly one
    scene the call is refused (the Cannot Remove toast) and leaves the
    collection as it is, of size 1; and a collection that holds at least one
    scene, with pairwise different ids, still holds at least one scene after
    any removeScene call. *)
Lemma removeScene_keeps_one : forall (sceneId : string) (scenes : list Scene),
  (List.length scenes = 1 ->
   removeScene sceneId scenes
   = (scenes, mkToast "Cannot Remove" "At least one scene is required" true) /\
   List.length (fst (removeScene sceneId scenes)) = 1) /\
  (1 <= List.length scenes ->
   distinct (map id scenes) = true ->
   1 <= List.length (fst (removeScene sceneId scenes))).
Proof.
  intros sceneId scenes. unfold removeScene. split.
  - intro Hone. rewrite Hone. cbn. auto.
  - intros Hlen Hids.
    destruct (Nat.leb_spec (List.length scenes) 1) as [_ | Hmany]; cbn [fst]; [exact Hlen |].
    unfold mapIndex. rewrite mapIndexFrom_length.
    pose proof (filter_split_length (fun s => String.eqb (id s) sceneId) scenes) as Hsplit.
    pose proof (distinct_at_most_one sceneId scenes Hids) as Hone.
    lia.
Qed.

Lemma removeScene_keeps_one_witness :
  List.length initialScenes = 1 /\
  distinct (map id initialScenes) = true /\
  removeScene "1" initialScenes
  = (initialScenes, mkToast "Cannot Remove" "At least one scene is required" true) /\
  1 <= List.length (fst (removeScene "1" initialScenes)).
Proof.
  destruct (removeScene_keeps_one "1" initialScenes) as [Hrefuse Hkeep].
  split; [reflexivity |]. split; [reflexivity |].
  split; [apply Hrefuse; reflexivity | apply Hkeep; [cbn; lia | reflexivity]].
Defined.

(** C6 at a collection in which two scenes carry the same id, reached by
    importing a one-row file at time 1000 and adding a scene one millisecond
    later: the collection holds two scenes, so removeScene on the shared id
    is not refused; the filter drops both scenes and no scene is left. *)
Theorem removeScene_shared_id :
  map id Invariants.sharedIdScenes = ["1001"; "1001"] /\
  map triple Invariants.sharedIdScenes
  = [(1%Z, "A calm lake at dawn", "We start at the lake."); (2%Z, "", "")] /\
  removeScene "1001" Invariants.sharedIdScenes
  = ([], mkToast "Scene Removed" "Scene removed successfully" false) /\
  List.length (fst (removeScene "1001" Invariants.sharedIdScenes)) = 0.
Proof. repeat split. Qed.

(** An empty collection, which the import of a file with a header line
    only produces, stays empty: the call is refused as on one scene. *)
Example removeScene_empty : forall sceneId : string,
  handleCSVImport 0 "scene_order,image_prompt,narration_script" = ImportSuccessful [] /\
  removeScene sceneId []
  = ([], mkToast "Cannot Remove" "At least one scene is required" true).
Proof. intro sceneId. split; reflexivity. Qed.

(** Removing from a larger collection takes out the scene and renumbers the
    rest from 1. *)
Example removeScene_renumbers :
  map triple (fst (removeScene "2" threeScenes))
  = [(1%Z, "A calm lake at dawn", "We start at the lake.");
     (2%Z, "A city skyline at night", "The city never sleeps.")].
Proof. reflexivity. Qed.

(** C3 at a collection of three scenes whose second image prompt holds a
    comma: the exported file quotes the field, the import cuts every line at
    every comma, and the second scene comes back with the image prompt cut
    short and the narration replaced by the rest of the image prompt. *)
Theorem csv_round_trip_comma : forall now : Z,
  exists imported : list Scene,
    handleCSVImport now (exportToCSV threeScenes) = ImportSuccessful imported /\
    map triple imported
    = [(1%Z, "A calm lake at dawn", "We start at the lake.");
       (2%Z, "A red", "round apple on a table");
       (3%Z, "A city skyline at night", "The city never sleeps.")] /\
    map triple imported <> map triple threeScenes.
Proof.
  intro now. eexists. split; [reflexivity |]. split; [reflexivity |].
  cbn. discriminate.
Qed.

(** The same round trip on a narration that quotes a word returns the
    doubled quotation marks of the export, and on a two-line image prompt it
    returns two scenes. *)
Lemma csv_round_trip_quotes : forall now : Z,
  exists imported : list Scene,
    handleCSVImport now (exportToCSV [quotingScene]) = ImportSuccessful imported /\
    map narration_script imported
    = ["She says " ++ quoted (quoted "hello") ++ " to the class"].
Proof. intro now. eexists. split; reflexivity. Qed.

Lemma csv_round_trip_line_break : forall now : Z,
  exists imported : list Scene,
    handleCSVImport now (exportToCSV [twoLineScene]) = ImportSuccessful imported /\
    map triple imported = [(1%Z, "A river", ""); (2%Z, "The river bends.", "")].
Proof. intro now. eexists. split; reflexivity. Qed.

(** Text without commas, quotation marks, line breaks or surrounding
    whitespace does survive the round trip. *)
Example csv_round_trip_plain : forall now : Z,
  exists imported : list Scene,
    handleCSVImport now (exportToCSV plainScenes) = ImportSuccessful imported /\
    map triple imported = map triple plainScenes.
Proof. intro now. eexists. split; reflexivity. Qed.

(** C7, as the code has it: the import skips blank lines only.  Every
    non-blank line after the header becomes one scene, also when both of its
    text fields are empty, so the number of imported scenes is the number of
    non-blank data lines. *)
Theorem handleCSVImport_scene_per_line : forall (now : Z) (csv : string) (newScenes : list Scene),
  handleCSVImport now csv = ImportSuccessful newScenes ->
  List.length newScenes = List.length (dataLines csv) /\
  newScenes = mapIndexFrom (sceneOfLine now) 1 (dataLines csv).
Proof.
  intros now csv newScenes. unfold handleCSVImport, dataLines.
  destruct (filter (fun line => truthy (trim line)) (splitChar (ascii_of_nat 10) csv))
    as [| header rows]; [discriminate |].
  destruct (negb (arrayIncludes (map trim (splitChar "," header)) "scene_order")
            || negb (arrayIncludes (map trim (splitChar "," header)) "image_prompt")
            || negb (arrayIncludes (map trim (splitChar "," header)) "narration_script"));
    [discriminate |].
  intro H. injection H as <-. cbn [tl].
  split; [apply mapIndexFrom_length | reflexivity].
Qed.

Lemma handleCSVImport_scene_per_line_witness :
  handleCSVImport 0 emptyRowFile = ImportSuccessful [mkScene "1" 1 "" "" None] /\
  List.length [mkScene "1" 1 "" "" None] = List.length (dataLines emptyRowFile).
Proof.
  split; [reflexivity |].
  apply (handleCSVImport_scene_per_line 0 emptyRowFile [mkScene "1" 1 "" "" None]).
  reflexivity.
Defined.

(** C7 as stated fails: the data line 1,, has an order and two empty text
    fields, and it is imported as a scene. *)
Lemma handleCSVImport_keeps_empty_row :
  exists imported : list Scene,
    handleCSVImport 0 emptyRowFile = ImportSuccessful imported /\
    List.length imported = 1 /\
    List.length (filter hasText imported) = 0 /\
    map triple imported = [(1%Z, "", "")].
Proof. eexists. repeat split. Qed.

(** The file that exportToCSV writes for the initial collection is such a
    file: its one data line carries two empty quoted fields. *)
Example export_initial_then_import :
  exists imported : list Scene,
    handleCSVImport 0 (exportToCSV initialScenes) = ImportSuccessful imported /\
    map triple imported = map triple initialScenes.
Proof. eexists. split; reflexivity. Qed.

Lemma no_analysis_filter (scenes : list Scene) :
  existsb hasAnalysis scenes = false -> filter hasAnalysis scenes = [].
Proof.
  induction scenes as [| s l IH]; cbn; [reflexivity |].
  intro H. apply orb_false_iff in H as [Hs Hl]. rewrite Hs. auto.
Qed.

(** C10: when no scene of the collection has an analysis attached,
    getOverallAnalysis returns null; no mean over zero scenes is formed and no
    score of 0 is reported. *)
Theorem getOverallAnalysis_absent : forall scenes : list Scene,
  existsb hasAnalysis scenes = false ->
  getOverallAnalysis scenes = None.
Proof.
  intros scenes H. unfold getOverallAnalysis.
  rewrite (no_analysis_filter scenes H). reflexivity.
Qed.

Lemma getOverallAnalysis_absent_witness :
  existsb hasAnalysis threeScenes = false /\
  getOverallAnalysis threeScenes = None.
Proof.
  split; [reflexivity | apply getOverallAnalysis_absent; reflexivity].
Defined.

(** With at least one analysed scene the result is present and the divisor
    of the mean is the positive number of analysed scenes. *)
Lemma getOverallAnalysis_present (scenes : list Scene) :
  existsb hasAnalysis scenes = true ->
  0 < List.length (filter hasAnalysis scenes) /\
  exists o, getOverallAnalysis scenes = Some o /\
    overall_score o =
      Math_round (inject_Z (fold_left (fun sum scene => (sum + overallScoreOr0 scene)%Z)
                                      (filter hasAnalysis scenes) 0%Z)
                  / inject_Z (Z.of_nat (List.length (filter hasAnalysis scenes)))).
Proof.
  intro H. apply existsb_exists in H as (s & Hin & Hs).
  assert (Hf : In s (filter hasAnalysis scenes)) by (apply filter_In; auto).
  unfold getOverallAnalysis.
  destruct (filter hasAnalysis scenes) as [| a l] eqn:E; [contradiction |].
  split; [cbn; lia |]. cbn [List.length Nat.eqb]. eexists. split; reflexivity.
Qed.

Example getOverallAnalysis_mixed :
  getOverallAnalysis
    (mkScene "9" 4 "A detailed city skyline" "We learn about cities." (Some sampleOverall)
     :: threeScenes)
  = Some (mkOverall 17 Poor).
Proof. reflexivity. Qed.

End Collection.

(* ================================================================== *)
(** ** More on the text features and the three scorers *)
(* ================================================================== *)

Section Scorers.
Import JS Spec PromptAnalyzer.

Lemma includes_prepend (s t kw : string) :
  includes t kw = true -> includes (s ++ t) kw = true.
Proof.
  intro H. induction s as [| c s IH]; cbn; [exact H |].
  rewrite IH. apply orb_true_r.
Qed.

(** The inner loop of scoreTopicRelevance adds 10 for every keyword of the
    cluster that the predicate accepts. *)
Lemma keyword_loop (p : string -> bool) (keywords : list string) (sc : Z) :
  fold_left (fun sc keyword => if p keyword then (sc + 10)%Z else sc) keywords sc
  = (sc + 10 * Z.of_nat (List.length (filter p keywords)))%Z.
Proof.
  revert sc. induction keywords as [| k l IH]; intro sc; cbn [fold_left filter].
  - cbn. lia.
  - rewrite IH. destruct (p k); cbn [List.length]; lia.
Qed.

Lemma cluster_loop (p : string -> bool) (clusters : list (list string)) (sc : Z) :
  fold_left
    (fun sc keywords =>
       fold_left (fun sc keyword => if p keyword then (sc + 10)%Z else sc) keywords sc)
    clusters sc
  = (sc + 10 * Z.of_nat (List.length (filter p (List.concat clusters))))%Z.
Proof.
  revert sc. induction clusters as [| c l IH]; intro sc; cbn [fold_left List.concat].
  - cbn. lia.
  - rewrite IH, keyword_loop, filter_app, length_app. lia.
Qed.

(** The number of topic keywords that occur in the lowercased text. *)
Lemma scoreTopicRelevance_count (text : string) :
  scoreTopicRelevance text
  = Z.min 100 (10 * Z.of_nat (List.length
                 (filter (includes (toLowerCase text)) (List.concat TOPIC_KEYWORDS)))).
Proof.
  unfold scoreTopicRelevance. f_equal. apply (cluster_loop _ TOPIC_KEYWORDS 0%Z).
Qed.

(** X1: scoreTopicRelevance is a multiple of 10 between 0 and 100: 10 points
    for each of the 28 topic keywords that occurs in the text, capped at
    100. *)
Theorem scoreTopicRelevance_range : forall text : string,
  (0 <= scoreTopicRelevance text <= 100)%Z /\
  (scoreTopicRelevance text mod 10 = 0)%Z /\
  scoreTopicRelevance text
  = Z.min 100 (10 * Z.of_nat (List.length
                 (filter (includes (toLowerCase text)) (List.concat TOPIC_KEYWORDS)))).
Proof.
  intro text. rewrite scoreTopicRelevance_count.
  set (n := Z.of_nat _). assert (0 <= n)%Z by (subst n; lia).
  split; [lia |]. split; [| reflexivity].
  destruct (Z.min_spec 100 (10 * n)) as [[_ ->] | [_ ->]]; [reflexivity |].
  rewrite Z.mul_comm. apply Z.mod_mul. discriminate.
Qed.

Lemma filter_length_le {A : Type} (p q : A -> bool) (l : list A) :
  (forall x, p x = true -> q x = true) ->
  List.length (filter p l) <= List.length (filter q l).
Proof.
  intro H. induction l as [| x l IH]; cbn; [lia |].
  destruct (p x) eqn:E.
  - rewrite (H x E). cbn. lia.
  - destruct (q x); cbn; lia.
Qed.

(** X2: text added before or after a prompt never lowers its topic
    relevance. *)
Theorem scoreTopicRelevance_grows : forall before text after : string,
  (scoreTopicRelevance text <= scoreTopicRelevance (before ++ text ++ after))%Z.
Proof.
  intros before text after. rewrite !scoreTopicRelevance_count.
  apply Z.min_le_compat_l.
  apply Z.mul_le_mono_nonneg_l; [lia |]. apply inj_le.
  apply filter_length_le. intros kw H.
  rewrite !toLowerCase_app. apply includes_prepend, includes_app, H.
Qed.

Lemma topic_bounds (text : string) : (0 <= scoreTopicRelevance text <= 100)%Z.
Proof.
  rewrite scoreTopicRelevance_count. lia.
Qed.

Lemma round_between (lo hi : Z) (x : Q) :
  (inject_Z lo <= x)%Q -> (x <= inject_Z hi)%Q -> (lo <= Math_round x <= hi)%Z.
Proof.
  intros Hlo Hhi. split.
  - rewrite <- (Math_round_Z lo). apply Math_round_mono, Hlo.
  - rewrite <- (Math_round_Z hi). apply Math_round_mono, Hhi.
Qed.

(** A raw total between two integers of the range gives a score between
    them. *)
Lemma finish_between (lo hi : Z) (t : Tally) :
  (0 <= lo)%Z -> (hi <= 100)%Z ->
  (inject_Z lo <= total t)%Q -> (total t <= inject_Z hi)%Q ->
  (lo <= score (finish t) <= hi)%Z.
Proof.
  intros H0 H100 Hlo Hhi. pose proof (round_between lo hi (total t) Hlo Hhi).
  unfold finish; cbn [score]. lia.
Qed.

Lemma finish_at_least (lo : Z) (t : Tally) :
  (lo <= 100)%Z -> (inject_Z lo <= total t)%Q -> (lo <= score (finish t))%Z.
Proof.
  intros H100 Hlo.
  assert (lo <= Math_round (total t))%Z
    by (rewrite <- (Math_round_Z lo); apply Math_round_mono, Hlo).
  unfold finish; cbn [score]. lia.
Qed.

Lemma finish_at_most (hi : Z) (t : Tally) :
  (0 <= hi)%Z -> (total t <= inject_Z hi)%Q -> (score (finish t) <= hi)%Z.
Proof.
  intros H0 Hhi.
  assert (Math_round (total t) <= hi)%Z
    by (rewrite <- (Math_round_Z hi); apply Math_round_mono, Hhi).
  unfold finish; cbn [score]. lia.
Qed.

(** The topic bonus as a rational between 0 and 100. *)
Lemma topic_bounds_Q (text : string) :
  (0 <= inject_Z (scoreTopicRelevance text))%Q /\
  (inject_Z (scoreTopicRelevance text) <= 100)%Q.
Proof.
  destruct (topic_bounds text) as [H0 H100].
  rewrite Zle_Qle in H0, H100. split; assumption.
Qed.

Ltac scorer_cases :=
  repeat match goal with
         | |- context [if ?b then _ else _] => destruct b
         end.

(** X3: the image score is never below 5 nor above 95, the video score is
    never above 95, and so the overall score never exceeds 97: no prompt
    reaches 100. *)
Theorem scores_short_of_100 : forall imageText narrationText : string,
  let a := analyzePrompt imageText narrationText in
  (5 <= score (image a) <= 95)%Z /\
  (score (video a) <= 95)%Z /\
  (overall_score (overall a) <= 97)%Z.
Proof.
  intros imageText narrationText a.
  assert (Hi : (5 <= score (analyzeImage imageText) <= 95)%Z).
  { destruct (topic_bounds_Q imageText) as [H0 H100].
    unfold analyzeImage. apply finish_between; try lia;
      unfold tallyImage; scorer_cases; cbn [total flag adjust start];
      change (inject_Z 5) with 5%Q; change (inject_Z 95) with 95%Q; lra. }
  assert (Hv : (score (analyzeVideo imageText) <= 95)%Z).
  { unfold analyzeVideo. apply finish_at_most; [lia |].
    unfold tallyVideo; scorer_cases; cbn [total flag adjust start];
      change (inject_Z 95) with 95%Q; lra. }
  pose proof (finish_range (tallyVoice narrationText)) as Ho.
  fold (analyzeVoice narrationText) in Ho.
  split; [exact Hi |]. split; [exact Hv |].
  subst a. unfold analyzePrompt; cbn [overall overall_score].
  rewrite Math_round_thirds.
  set (n := (score (analyzeImage imageText) + score (analyzeVideo imageText)
             + score (analyzeVoice narrationText))%Z).
  assert (n <= 290)%Z by (subst n; lia).
  pose proof (Z.div_mod (2 * n + 3) 6 ltac:(discriminate)) as Hd.
  pose proof (Z.mod_pos_bound (2 * n + 3) 6 ltac:(reflexivity)) as Hm.
  lia.
Qed.

Ltac tally_cases :=
  scorer_cases; cbn [total found advice flag adjust start app List.length].

Lemma tallyImage_clean (prompt : string) :
  found (tallyImage prompt) = [] -> (65 <= total (tallyImage prompt))%Q.
Proof.
  destruct (topic_bounds_Q prompt) as [H0 H100].
  unfold tallyImage; tally_cases; intro H; try discriminate H; lra.
Qed.

Lemma tallyVideo_clean (prompt : string) :
  found (tallyVideo prompt) = [] -> (85 <= total (tallyVideo prompt))%Q.
Proof.
  unfold tallyVideo; tally_cases; intro H; try discriminate H; lra.
Qed.

Lemma tallyVoice_clean (script : string) :
  found (tallyVoice script) = [] -> (65 <= total (tallyVoice script))%Q.
Proof.
  destruct (topic_bounds_Q script) as [H0 H100].
  unfold tallyVoice; tally_cases; intro H; try discriminate H; lra.
Qed.

(** X4: every penalty comes with an issue.  A dimension that reports no
    issue scores at least 65 (image), 85 (video) or 65 (voice), and an
    analysis without any issue has an overall score of at least 72, so it is
    rated Good or Production Ready. *)
Theorem clean_analysis_is_good : forall imageText narrationText : string,
  let a := analyzePrompt imageText narrationText in
  issues (image a) = [] -> issues (video a) = [] -> issues (voice a) = [] ->
  (65 <= score (image a))%Z /\ (85 <= score (video a))%Z /\ (65 <= score (voice a))%Z /\
  (72 <= overall_score (overall a))%Z /\
  (readiness (overall a) = Good \/ readiness (overall a) = ProductionReady).
Proof.
  intros imageText narrationText a Hi Hv Ho.
  assert (Si : (65 <= score (analyzeImage imageText))%Z)
    by (apply finish_at_least; [lia | apply tallyImage_clean, Hi]).
  assert (Sv : (85 <= score (analyzeVideo imageText))%Z)
    by (apply finish_at_least; [lia | apply tallyVideo_clean, Hv]).
  assert (So : (65 <= score (analyzeVoice narrationText))%Z)
    by (apply finish_at_least; [lia | apply tallyVoice_clean, Ho]).
  assert (Hall : (72 <= overall_score (overall a))%Z).
  { subst a. unfold analyzePrompt; cbn [overall overall_score].
    rewrite Math_round_thirds.
    set (n := (score (analyzeImage imageText) + score (analyzeVideo imageText)
               + score (analyzeVoice narrationText))%Z).
    assert (215 <= n)%Z by (subst n; lia).
    pose proof (Z.div_mod (2 * n + 3) 6 ltac:(discriminate)) as Hd.
    pose proof (Z.mod_pos_bound (2 * n + 3) 6 ltac:(reflexivity)) as Hm.
    lia. }
  split; [exact Si |]. split; [exact Sv |]. split; [exact So |]. split; [exact Hall |].
  change (readiness (overall a)) with (readinessOf (overall_score (overall a))).
  unfold readinessOf.
  destruct (Z.leb_spec 80 (overall_score (overall a))); [now right |].
  destruct (Z.leb_spec 60 (overall_score (overall a))); [now left | lia].
Qed.

Lemma clean_analysis_is_good_witness :
  let a := analyzePrompt
             "A detailed view of a river that flows to the sea in a smooth way."
             "We can see how the sun moves in the sky each day. It is a big star." in
  issues (image a) = [] /\ issues (video a) = [] /\ issues (voice a) = [] /\
  (72 <= overall_score (overall a))%Z.
Proof.
  split; [reflexivity |]. split; [reflexivity |]. split; [reflexivity |].
  apply (clean_analysis_is_good
           "A detailed view of a river that flows to the sea in a smooth way."
           "We can see how the sun moves in the sky each day. It is a big star.");
    reflexivity.
Defined.

(** X5: the three scorers report issues and suggestions in pairs, at most
    three pairs for the image and for the video and at most four for the
    voice. *)
Theorem issues_paired : forall imageText narrationText : string,
  let a := analyzePrompt imageText narrationText in
  List.length (issues (image a)) = List.length (suggestions (image a)) /\
  List.length (issues (video a)) = List.length (suggestions (video a)) /\
  List.length (issues (voice a)) = List.length (suggestions (voice a)) /\
  List.length (issues (image a)) <= 3 /\
  List.length (issues (video a)) <= 3 /\
  List.length (issues (voice a)) <= 4.
Proof.
  intros imageText narrationText a. subst a.
  unfold analyzePrompt; cbn [image video voice].
  unfold analyzeImage, analyzeVideo, analyzeVoice, finish; cbn [issues suggestions].
  repeat split.
  1, 4: unfold tallyImage; tally_cases; lia.
  1, 3: unfold tallyVideo; tally_cases; lia.
  all: unfold tallyVoice; tally_cases; lia.
Qed.

(** X6: the length issue of each scorer is reported exactly below its
    threshold: under 50 characters for the image prompt and the narration,
    under 30 for the video. *)
Theorem length_issues : forall imageText narrationText : string,
  let a := analyzePrompt imageText narrationText in
  (In "Image prompt too short" (issues (image a)) <-> String.length imageText < 50) /\
  (In "Video description too brief" (issues (video a)) <-> String.length imageText < 30) /\
  (In "Narration too short" (issues (voice a)) <-> String.length narrationText < 50).
Proof.
  intros imageText narrationText a. subst a.
  unfold analyzePrompt; cbn [image video voice].
  unfold analyzeImage, analyzeVideo, analyzeVoice, finish; cbn [issues].
  split; [| split].
  - unfold tallyImage. destruct (Nat.ltb_spec (String.length imageText) 50) as [Hlen | Hlen];
      tally_cases; cbn [In]; split; intro H; try lia; auto;
      repeat (destruct H as [H | H]; try discriminate H); try contradiction.
  - unfold tallyVideo. destruct (Nat.ltb_spec (String.length imageText) 30) as [Hlen | Hlen];
      tally_cases; cbn [In]; split; intro H; try lia; auto;
      repeat (destruct H as [H | H]; try discriminate H); try contradiction.
  - unfold tallyVoice. destruct (Nat.ltb_spec (String.length narrationText) 50) as [Hlen | Hlen];
      tally_cases; cbn [In]; split; intro H; try lia; auto;
      repeat (destruct H as [H | H]; try discriminate H); try contradiction.
Qed.

Lemma toLowerChar_toUpperChar (c : ascii) : toLowerChar (toUpperChar c) = toLowerChar c.
Proof. destruct c as [[] [] [] [] [] [] [] []]; reflexivity. Qed.

Lemma toLowerChar_idempotent (c : ascii) : toLowerChar (toLowerChar c) = toLowerChar c.
Proof. destruct c as [[] [] [] [] [] [] [] []]; reflexivity. Qed.

Lemma toLowerCase_toUpperCase (s : string) : toLowerCase (toUpperCase s) = toLowerCase s.
Proof.
  induction s as [| c s IH]; cbn; [reflexivity |].
  now rewrite toLowerChar_toUpperChar, IH.
Qed.

Lemma toLowerCase_idempotent (s : string) : toLowerCase (toLowerCase s) = toLowerCase s.
Proof.
  induction s as [| c s IH]; cbn; [reflexivity |].
  now rewrite toLowerChar_idempotent, IH.
Qed.

Lemma toUpperCase_length (s : string) : String.length (toUpperCase s) = String.length s.
Proof. induction s as [| c s IH]; cbn; [reflexivity | now rewrite IH]. Qed.

Lemma toLowerCase_length (s : string) : String.length (toLowerCase s) = String.length s.
Proof. induction s as [| c s IH]; cbn; [reflexivity | now rewrite IH]. Qed.

(** X7: on ASCII text letter case does not matter to the video scorer, to
    the topic relevance or to the sentiment: upper-casing or lower-casing
    the whole text leaves the video analysis (score, issues and
    suggestions), the topic score and the sentiment unchanged. *)
Theorem case_insensitive_features : forall text : string,
  Invariants.asciiText text = true ->
  analyzeVideo (toUpperCase text) = analyzeVideo text /\
  analyzeVideo (toLowerCase text) = analyzeVideo text /\
  scoreTopicRelevance (toUpperCase text) = scoreTopicRelevance text /\
  scoreTopicRelevance (toLowerCase text) = scoreTopicRelevance text /\
  calculateSentiment (toUpperCase text) = calculateSentiment text /\
  calculateSentiment (toLowerCase text) = calculateSentiment text.
Proof.
  intros text _.
  unfold analyzeVideo, tallyVideo, someIncluded, scoreTopicRelevance, calculateSentiment.
  rewrite toLowerCase_toUpperCase, toLowerCase_idempotent,
    toUpperCase_length, toLowerCase_length.
  repeat split.
Qed.

Lemma case_insensitive_features_witness :
  let text := "A Quick Science Scene shows the Great transition" in
  Invariants.asciiText text = true /\
  analyzeVideo (toUpperCase text) = analyzeVideo text /\
  calculateSentiment (toUpperCase text) = calculateSentiment text.
Proof.
  split; [reflexivity |].
  destruct (case_insensitive_features
              "A Quick Science Scene shows the Great transition" eq_refl)
    as (Hv & _ & _ & _ & Hs & _).
  split; [exact Hv | exact Hs].
Defined.

Lemma tokens_blank (text : string) : allChars isWhiteSpace text = true -> tokens text = [].
Proof.
  induction text as [| c s IH]; [reflexivity |].
  cbn [allChars tokens]. intro H. apply andb_true_iff in H as [Hc Hs].
  rewrite Hc. auto.
Qed.

(** X8: on a text that trim() leaves empty (the empty string, or
    whitespace only) there is no word, and calculateFleschKincaid returns 0
    instead of dividing by zero. *)
Theorem calculateFleschKincaid_blank : forall text : string,
  trim text = "" ->
  wordCount text = 0 /\ calculateFleschKincaid text = 0%Q.
Proof.
  intros text H. apply trim_empty in H.
  assert (Hw : wordCount text = 0).
  { destruct (syllableCount_pieces text) as [-> _]. now rewrite (tokens_blank text H). }
  split; [exact Hw |].
  unfold calculateFleschKincaid. rewrite Hw. cbn. now rewrite orb_true_r.
Qed.

Lemma calculateFleschKincaid_blank_witness :
  let text := String (ascii_of_nat 160) "  " in
  trim text = "" /\
  wordCount text = 0 /\ calculateFleschKincaid text = 0%Q.
Proof.
  split; [reflexivity | apply calculateFleschKincaid_blank; reflexivity].
Defined.

Lemma list_sum_at_least (l : list string) :
  List.length l <= list_sum (map syllablesOfWord l).
Proof.
  induction l as [| w l IH]; [cbn; lia |].
  cbn [map List.length]. rewrite list_sum_cons.
  unfold syllablesOfWord at 1. lia.
Qed.

Lemma syllables_at_least_words (text : string) : wordCount text <= syllableCount text.
Proof.
  destruct (syllableCount_pieces text) as [-> ->].
  unfold syllablesOf. pose proof (list_sum_at_least (tokens text)). lia.
Qed.

Lemma ofNat_pos (n : nat) : 0 < n -> (0 < ofNat n)%Q.
Proof.
  intro H. unfold ofNat. change 0%Q with (inject_Z 0). rewrite <- Zlt_Qlt. lia.
Qed.

Lemma ofNat_le (n m : nat) : n <= m -> (ofNat n <= ofNat m)%Q.
Proof. intro H. unfold ofNat. rewrite <- Zle_Qle. lia. Qed.

(** X9: every word counts for at least one syllable, so the readability
    value stays below 206.835 - 84.6 = 122.235 on every text. *)
Theorem calculateFleschKincaid_below : forall text : string,
  (calculateFleschKincaid text < 122235 # 1000)%Q.
Proof.
  intro text. unfold calculateFleschKincaid.
  destruct (sentenceCount text =? 0) eqn:Es; [reflexivity |].
  destruct (wordCount text =? 0) eqn:Ew; [reflexivity |].
  cbn [orb]. apply Nat.eqb_neq in Es, Ew.
  assert (Hs : (0 < ofNat (sentenceCount text))%Q) by (apply ofNat_pos; lia).
  assert (Hw : (0 < ofNat (wordCount text))%Q) by (apply ofNat_pos; lia).
  assert (Hratio : (0 < ofNat (wordCount text) / ofNat (sentenceCount text))%Q).
  { apply Qlt_shift_div_l; [exact Hs |]. now rewrite Qmult_0_l. }
  assert (Hsyl : (1 <= ofNat (syllableCount text) / ofNat (wordCount text))%Q).
  { apply Qle_shift_div_l; [exact Hw |]. rewrite Qmult_1_l.
    apply ofNat_le, syllables_at_least_words. }
  lra.
Qed.

Lemma isWhiteSpace_toLowerChar (c : ascii) : isWhiteSpace (toLowerChar c) = isWhiteSpace c.
Proof. destruct c as [[] [] [] [] [] [] [] []]; reflexivity. Qed.

(** Lower-casing a text lower-cases its pieces. *)
Lemma splitRunsFrom_toLowerCase (b : bool) (s : string) :
  splitRunsFrom isWhiteSpace b (toLowerCase s)
  = map toLowerCase (splitRunsFrom isWhiteSpace b s).
Proof.
  revert b. induction s as [| c s IH]; intro b; [reflexivity |].
  cbn [toLowerCase splitRunsFrom]. rewrite isWhiteSpace_toLowerChar.
  destruct (isWhiteSpace c).
  - destruct b; cbn [map]; now rewrite IH.
  - rewrite IH. destruct (splitRunsFrom_cons isWhiteSpace false s) as (p & r & ->).
    reflexivity.
Qed.

Lemma sentiment_loop (words : list string) (sc : Z) :
  fold_left
    (fun sc word =>
       let sc := if arrayIncludes positiveWords word then (sc + 1)%Z else sc in
       if arrayIncludes negativeWords word then (sc - 1)%Z else sc)
    words sc
  = (sc + fold_right Z.add 0%Z (map polarity words))%Z.
Proof.
  revert sc. induction words as [| w l IH]; intro sc; cbn [fold_left map fold_right].
  - lia.
  - rewrite IH. unfold polarity.
    destruct (arrayIncludes positiveWords w), (arrayIncludes negativeWords w); lia.
Qed.

Lemma polarity_sum_bound (words : list string) :
  (Z.abs (fold_right Z.add 0%Z (map polarity (map toLowerCase words)))
   <= Z.of_nat (List.length (filter nonEmpty words)))%Z.
Proof.
  induction words as [| w l IH]; [cbn; lia |].
  cbn [map fold_right filter].
  destruct w as [| c w].
  - change (polarity (toLowerCase "")) with 0%Z. cbn [nonEmpty String.length Nat.ltb Nat.leb].
    lia.
  - change (nonEmpty (String c w)) with true. cbn [List.length].
    assert (-1 <= polarity (toLowerCase (String c w)) <= 1)%Z.
    { unfold polarity.
      destruct (arrayIncludes positiveWords _), (arrayIncludes negativeWords _); lia. }
    lia.
Qed.

(** X10: every word moves the sentiment by at most one, so its absolute
    value never exceeds the number of words of the text. *)
Theorem calculateSentiment_bound : forall text : string,
  (Z.abs (calculateSentiment text) <= Z.of_nat (wordCount text))%Z.
Proof.
  intro text. unfold calculateSentiment, wordCount, splitWhitespace, splitRuns.
  rewrite sentiment_loop, splitRunsFrom_toLowerCase, Z.add_0_l.
  apply polarity_sum_bound.
Qed.

End Scorers.

(* ================================================================== *)
(** ** More on trimming and on keyword search *)
(* ================================================================== *)

Section Trimming.
Import JS Spec Invariants.

Lemma allChars_app (p : ascii -> bool) (s t : string) :
  allChars p (s ++ t) = allChars p s && allChars p t.
Proof.
  induction s as [| c s IH]; cbn; [reflexivity |].
  now rewrite IH, andb_assoc.
Qed.

Lemma truthy_trim_true (s : string) :
  truthy (trim s) = true <-> allChars isWhiteSpace s = false.
Proof.
  split; intro H.
  - destruct (allChars isWhiteSpace s) eqn:E; [| reflexivity].
    now rewrite (trim_blank s E) in H.
  - destruct (truthy (trim s)) eqn:E; [reflexivity |].
    now rewrite (truthy_trim_false s E) in H.
Qed.

(** What trimStart returns begins with a visible character. *)
Lemma trimStart_shape (s : string) :
  trimStart s = "" \/ exists c r, trimStart s = String c r /\ isWhiteSpace c = false.
Proof.
  induction s as [| c s IH]; cbn; [now left |].
  destruct (isWhiteSpace c) eqn:E; [exact IH |]. right. eauto.
Qed.

Lemma trimStart_visible (c : ascii) (r : string) :
  isWhiteSpace c = false -> trimStart (String c r) = String c r.
Proof. intro H. cbn. now rewrite H. Qed.

Lemma trimStart_idempotent (s : string) : trimStart (trimStart s) = trimStart s.
Proof.
  destruct (trimStart_shape s) as [-> | (c & r & -> & Hc)]; [reflexivity |].
  now apply trimStart_visible.
Qed.

Lemma trimEnd_cons (c d : ascii) (s r : string) :
  trimEnd s = String d r -> trimEnd (String c s) = String c (String d r).
Proof. intro H. cbn [trimEnd]. now rewrite H. Qed.

Lemma trimEnd_idempotent (s : string) : trimEnd (trimEnd s) = trimEnd s.
Proof.
  induction s as [| c s IH]; [reflexivity |].
  cbn [trimEnd]. destruct (trimEnd s) as [| d r] eqn:E.
  - destruct (isWhiteSpace c) eqn:Ec; [reflexivity |]. cbn. now rewrite Ec.
  - apply trimEnd_cons, IH.
Qed.

(** trimEnd keeps a visible first character in place. *)
Lemma trimEnd_head (c : ascii) (r : string) :
  isWhiteSpace c = false -> exists r', trimEnd (String c r) = String c r'.
Proof.
  intro H. cbn [trimEnd]. destruct (trimEnd r); [rewrite H |]; eauto.
Qed.

Lemma trim_idempotent (s : string) : trim (trim s) = trim s.
Proof.
  unfold trim.
  destruct (trimStart_shape s) as [-> | (c & r & -> & Hc)]; [reflexivity |].
  destruct (trimEnd_head c r Hc) as (r' & E).
  rewrite E, (trimStart_visible c r' Hc), <- E. apply trimEnd_idempotent.
Qed.

Lemma trimStart_app (s t : string) :
  trimStart s <> "" -> trimStart (s ++ t) = trimStart s ++ t.
Proof.
  induction s as [| c s IH]; cbn; [congruence |].
  destruct (isWhiteSpace c); [exact IH | reflexivity].
Qed.

Lemma trimEnd_app (s t : string) :
  trimEnd t <> "" -> trimEnd (s ++ t) = s ++ trimEnd t.
Proof.
  intro H. induction s as [| c s IH]; [reflexivity |].
  cbn [append trimEnd]. rewrite IH.
  destruct (s ++ trimEnd t) eqn:E; [| reflexivity].
  destruct s; cbn in E; [contradiction | discriminate].
Qed.

(** A clause appended to a text with a visible character stays in place
    when the result is trimmed. *)
Lemma trim_append (s clause : string) :
  truthy (trim s) = true -> trimEnd clause = clause -> clause <> "" ->
  trim (s ++ clause) = trimStart s ++ clause.
Proof.
  intros Hs Hc Hne. unfold trim in *.
  assert (trimStart s <> "") by (intro E; rewrite E in Hs; discriminate).
  rewrite trimStart_app by assumption.
  rewrite trimEnd_app by (rewrite Hc; exact Hne). now rewrite Hc.
Qed.

Lemma startsWith_includes (kw s : string) : startsWith kw s = true -> includes s kw = true.
Proof. intro H. destruct s; cbn; now rewrite H. Qed.

Lemma includes_tail (c : ascii) (kw s : string) :
  includes s kw = true -> includes (String c s) kw = true.
Proof. intro H. cbn [includes]. rewrite H. apply orb_true_r. Qed.

Lemma lastSatisfies_cons (p : ascii -> bool) (k : ascii) (kw : string) :
  lastSatisfies p (String k kw) = true -> kw = "" /\ p k = true \/ lastSatisfies p kw = true /\ kw <> "".
Proof.
  cbn. destruct kw; [now left | intro H; right; split; [exact H | discriminate]].
Qed.

Lemma startsWith_nonempty (kw s : string) :
  kw <> "" -> startsWith kw s = true -> s <> "".
Proof. destruct kw; [congruence |]. destruct s; [discriminate | discriminate]. Qed.

Lemma includes_nonempty (kw s : string) :
  kw <> "" -> includes s kw = true -> s <> "".
Proof. destruct kw; [congruence |]. destruct s; [discriminate | discriminate]. Qed.

Lemma startsWith_trimEnd (kw s : string) :
  lastSatisfies visible kw = true -> startsWith kw s = true ->
  startsWith kw (trimEnd s) = true.
Proof.
  revert s. induction kw as [| k kw IH]; intros s Hlast H; [discriminate |].
  destruct s as [| c s]; [discriminate |].
  cbn [startsWith] in H. apply andb_true_iff in H as [Hk Hrest].
  apply Ascii.eqb_eq in Hk. subst c.
  destruct (lastSatisfies_cons _ _ _ Hlast) as [[-> Hv] | [Hl Hne]].
  - unfold visible in Hv. apply negb_true_iff in Hv.
    destruct (trimEnd_head k s Hv) as (r & ->). cbn. now rewrite Ascii.eqb_refl.
  - specialize (IH s Hl Hrest).
    pose proof (startsWith_nonempty kw (trimEnd s) Hne IH) as Hr.
    cbn [trimEnd]. destruct (trimEnd s); [contradiction |].
    cbn [startsWith]. now rewrite Ascii.eqb_refl, IH.
Qed.

Lemma lastSatisfies_nonempty (p : ascii -> bool) (kw : string) :
  lastSatisfies p kw = true -> kw <> "".
Proof. destruct kw; [discriminate | discriminate]. Qed.

Lemma includes_trimEnd (kw s : string) :
  lastSatisfies visible kw = true -> includes s kw = true ->
  includes (trimEnd s) kw = true.
Proof.
  intro Hlast. pose proof (lastSatisfies_nonempty _ _ Hlast) as Hne.
  induction s as [| c s IH]; intro H.
  - now apply includes_nonempty in H.
  - cbn [includes] in H. apply orb_true_iff in H as [H | H].
    + apply startsWith_includes, startsWith_trimEnd; assumption.
    + specialize (IH H). pose proof (includes_nonempty kw _ Hne IH) as Hr.
      cbn [trimEnd]. destruct (trimEnd s); [contradiction |].
      apply includes_tail, IH.
Qed.

Lemma includes_trimStart (kw s : string) :
  firstSatisfies visible kw = true -> includes s kw = true ->
  includes (trimStart s) kw = true.
Proof.
  intro Hfirst. induction s as [| c s IH]; intro H; [exact H |].
  cbn [trimStart]. destruct (isWhiteSpace c) eqn:Ec; [| exact H].
  apply IH. cbn [includes] in H. apply orb_true_iff in H as [H | H]; [| exact H].
  destruct kw as [| k kw]; [discriminate |]. cbn in H, Hfirst.
  apply andb_true_iff in H as [Hk _]. apply Ascii.eqb_eq in Hk. subst k.
  unfold visible in Hfirst. now rewrite Ec in Hfirst.
Qed.

Lemma dropLastIf_head (c a b : ascii) (s : string) :
  dropLastIf c (String a (String b s)) = String a (dropLastIf c (String b s)).
Proof. reflexivity. Qed.

Lemma startsWith_dropLastIf (c : ascii) (kw s : string) :
  lastSatisfies (fun k => negb (Ascii.eqb k c)) kw = true -> startsWith kw s = true ->
  startsWith kw (dropLastIf c s) = true.
Proof.
  revert s. induction kw as [| k kw IH]; intros s Hlast H; [discriminate |].
  destruct s as [| a s]; [discriminate |].
  cbn [startsWith] in H. apply andb_true_iff in H as [Hk Hrest].
  apply Ascii.eqb_eq in Hk. subst a.
  destruct (lastSatisfies_cons _ _ _ Hlast) as [[-> Hv] | [Hl Hne]].
  - apply negb_true_iff in Hv. destruct s as [| b s].
    + cbn. rewrite Hv. cbn. now rewrite Ascii.eqb_refl.
    + rewrite dropLastIf_head. cbn. now rewrite Ascii.eqb_refl.
  - specialize (IH s Hl Hrest).
    pose proof (startsWith_nonempty kw s Hne Hrest) as Hs.
    destruct s as [| b s]; [contradiction |].
    rewrite dropLastIf_head. cbn [startsWith]. now rewrite Ascii.eqb_refl, IH.
Qed.

Lemma includes_dropLastIf (c : ascii) (kw s : string) :
  lastSatisfies (fun k => negb (Ascii.eqb k c)) kw = true -> includes s kw = true ->
  includes (dropLastIf c s) kw = true.
Proof.
  intro Hlast. pose proof (lastSatisfies_nonempty _ _ Hlast) as Hne.
  induction s as [| a s IH]; intro H.
  - now apply includes_nonempty in H.
  - cbn [includes] in H. apply orb_true_iff in H as [H | H].
    + apply startsWith_includes, startsWith_dropLastIf; assumption.
    + pose proof (includes_nonempty kw s Hne H) as Hs.
      destruct s as [| b s]; [contradiction |].
      rewrite dropLastIf_head. apply includes_tail, IH, H.
Qed.

Lemma toLowerCase_trimStart (s : string) : toLowerCase (trimStart s) = trimStart (toLowerCase s).
Proof.
  induction s as [| c s IH]; [reflexivity |].
  cbn [trimStart toLowerCase].
  replace (isWhiteSpace (toLowerChar c)) with (isWhiteSpace c)
    by (destruct c as [[] [] [] [] [] [] [] []]; reflexivity).
  destruct (isWhiteSpace c); [exact IH | reflexivity].
Qed.

Lemma toLowerCase_trimEnd (s : string) : toLowerCase (trimEnd s) = trimEnd (toLowerCase s).
Proof.
  induction s as [| c s IH]; [reflexivity |].
  cbn [trimEnd toLowerCase]. rewrite <- IH.
  replace (isWhiteSpace (toLowerChar c)) with (isWhiteSpace c)
    by (destruct c as [[] [] [] [] [] [] [] []]; reflexivity).
  destruct (trimEnd s); cbn [toLowerCase]; [destruct (isWhiteSpace c) |]; reflexivity.
Qed.

Lemma toLowerCase_dropLastIf_stop (s : string) :
  toLowerCase (dropLastIf "." s) = dropLastIf "." (toLowerCase s).
Proof.
  induction s as [| a s IH]; [reflexivity |].
  destruct s as [| b s].
  - cbn. replace (Ascii.eqb (toLowerChar a) ".") with (Ascii.eqb a ".")
      by (destruct a as [[] [] [] [] [] [] [] []]; reflexivity).
    destruct (Ascii.eqb a "."); reflexivity.
  - rewrite dropLastIf_head. cbn [toLowerCase] in *. rewrite dropLastIf_head. now rewrite IH.
Qed.

End Trimming.

(* ================================================================== *)
(** ** What the optimizers guarantee about their output *)
(* ================================================================== *)

Section Rewrites.
Import JS Spec PromptOptimizer Invariants.

Lemma mentions_prepend (s t kw : string) :
  mentions t kw = true -> mentions (s ++ t) kw = true.
Proof. unfold mentions. rewrite toLowerCase_app. apply includes_prepend. Qed.

Lemma solid_parts (kw : string) :
  solid kw = true ->
  firstSatisfies visible kw = true /\ lastSatisfies visible kw = true
  /\ lastSatisfies notStop kw = true.
Proof.
  unfold solid. intro H. apply andb_true_iff in H as [H H3].
  apply andb_true_iff in H as [H1 H2]. auto.
Qed.

Lemma mentions_trim (s kw : string) :
  solid kw = true -> mentions s kw = true -> mentions (trim s) kw = true.
Proof.
  intros Hk H. destruct (solid_parts kw Hk) as (H1 & H2 & _).
  unfold mentions, trim in *. rewrite toLowerCase_trimEnd, toLowerCase_trimStart.
  apply includes_trimEnd; [exact H2 |]. apply includes_trimStart; assumption.
Qed.

Lemma mentions_dropLastIf (s kw : string) :
  solid kw = true -> mentions s kw = true -> mentions (dropLastIf "." s) kw = true.
Proof.
  intros Hk H. destruct (solid_parts kw Hk) as (_ & _ & H3).
  unfold mentions in *. rewrite toLowerCase_dropLastIf_stop.
  apply includes_dropLastIf; assumption.
Qed.

(** A signal found in one text is found in another one that keeps every
    solid keyword. *)
Lemma signal_kept (keywords : list string) (s s' : string) :
  forallb solid keywords = true ->
  (forall kw, solid kw = true -> mentions s kw = true -> mentions s' kw = true) ->
  existsb (mentions s) keywords = true -> existsb (mentions s') keywords = true.
Proof.
  intros Hsolid Hkeep H. apply existsb_exists in H as (kw & Hin & Hm).
  apply existsb_exists. exists kw. split; [exact Hin |].
  apply Hkeep; [| exact Hm]. rewrite forallb_forall in Hsolid. now apply Hsolid.
Qed.

Lemma signal_app (keywords : list string) (s t : string) :
  existsb (mentions s) keywords = true -> existsb (mentions (s ++ t)) keywords = true.
Proof.
  intro H. apply existsb_exists in H as (kw & Hin & Hm).
  apply existsb_exists. exists kw. split; [exact Hin | now apply mentions_app].
Qed.

Lemma signal_prepend (keywords : list string) (s t : string) :
  existsb (mentions t) keywords = true -> existsb (mentions (s ++ t)) keywords = true.
Proof.
  intro H. apply existsb_exists in H as (kw & Hin & Hm).
  apply existsb_exists. exists kw. split; [exact Hin | now apply mentions_prepend].
Qed.

Lemma imageSignals_reached (s : string) :
  truthy (trim s) = true ->
  exists x, optimizeImagePrompt s = trim x /\ imageSignals x.
Proof.
  intro Hs. unfold optimizeImagePrompt, imageSignals. rewrite Hs. cbn [negb].
  set (o1 := if negb (mentions s "educational") then "Educational content: " ++ s else s).
  assert (E1 : mentions o1 "educational" = true).
  { subst o1. destruct (mentions s "educational") eqn:E; cbn [negb]; [exact E |].
    now apply mentions_app. }
  set (o2 := if negb (existsb (mentions o1) visualWords)
             then dropLastIf "." o1 ++ ". Visualize this with clear, professional imagery."
             else o1).
  assert (E2 : mentions o2 "educational" = true /\ existsb (mentions o2) visualWords = true).
  { subst o2. destruct (existsb (mentions o1) visualWords) eqn:E; cbn [negb]; [auto |].
    split.
    - apply mentions_app, mentions_dropLastIf; [reflexivity | exact E1].
    - now apply signal_prepend. }
  destruct E2 as [E2 V2].
  exists (if negb (existsb (mentions o2) styleKeywords)
          then o2 ++ " Use detailed, professional style with clean modern design."
          else o2).
  split; [reflexivity |].
  destruct (existsb (mentions o2) styleKeywords) eqn:E; cbn [negb]; [auto |].
  split; [now apply mentions_app |]. split; [now apply signal_app |].
  now apply signal_prepend.
Qed.

Lemma orb_mentions_app (s t a b : string) :
  mentions s a || mentions s b = true -> mentions (s ++ t) a || mentions (s ++ t) b = true.
Proof.
  intro H. apply orb_true_iff in H as [H | H];
    rewrite (mentions_app s t _ H); [reflexivity | apply orb_true_r].
Qed.

Lemma videoSignals_reached (s : string) :
  truthy (trim s) = true ->
  exists x, optimizeVideoPrompt s = trim x /\ videoSignals x.
Proof.
  intro Hs. unfold optimizeVideoPrompt, videoSignals. rewrite Hs. cbn [negb].
  set (o1 := if negb (mentions s "scene") && negb (mentions s "sequence")
             then s ++ " Structure as engaging scenes with smooth transitions." else s).
  assert (S1 : mentions o1 "scene" || mentions o1 "sequence" = true).
  { subst o1. destruct (mentions s "scene") eqn:Ea; cbn [negb andb orb]; [now rewrite Ea |].
    destruct (mentions s "sequence") eqn:Eb; cbn [negb]; [now rewrite Ea, Eb |].
    rewrite (mentions_prepend s _ "scene"); reflexivity. }
  set (o2 := if negb (existsb (mentions o1) motionWords)
             then o1 ++ " Include smooth transitions and dynamic movement." else o1).
  assert (S2 : mentions o2 "scene" || mentions o2 "sequence" = true
               /\ existsb (mentions o2) motionWords = true).
  { subst o2. destruct (existsb (mentions o1) motionWords) eqn:E; cbn [negb]; [auto |].
    split; [now apply orb_mentions_app | now apply signal_prepend]. }
  destruct S2 as [S2 M2].
  exists (if negb (mentions o2 "brief") && negb (mentions o2 "quick")
             && negb (mentions o2 "short")
          then o2 ++ " Keep scenes brief for optimal video generation (4-5 seconds each)."
          else o2).
  split; [reflexivity |].
  destruct (mentions o2 "brief") eqn:Ea; cbn [negb andb orb];
    [rewrite Ea; auto |].
  destruct (mentions o2 "quick") eqn:Eb; cbn [negb andb orb];
    [rewrite Eb, orb_true_r; auto |].
  destruct (mentions o2 "short") eqn:Ec; cbn [negb andb orb];
    [rewrite Ec, orb_true_r; auto |].
  split; [now apply orb_mentions_app |]. split; [now apply signal_app |].
  rewrite (mentions_prepend o2 _ "brief"); reflexivity.
Qed.

Lemma voiceSignals_reached (s : string) :
  truthy (trim s) = true ->
  exists x, optimizeVoiceScript s = trim x /\ voiceSignals x.
Proof.
  intro Hs. unfold optimizeVoiceScript, voiceSignals. rewrite Hs. cbn [negb].
  set (o1 := if negb (mentions s "explain") && negb (mentions s "narrat")
             then s ++ narrationClause else s).
  assert (S1 : mentions o1 "explain" || mentions o1 "narrat" = true).
  { subst o1. destruct (mentions s "explain") eqn:Ea; cbn [negb andb orb]; [now rewrite Ea |].
    destruct (mentions s "narrat") eqn:Eb; cbn [negb]; [now rewrite Ea, Eb |].
    rewrite (mentions_prepend s _ "explain"); reflexivity. }
  set (o2 := if negb (existsb (mentions o1) educationalTone)
             then o1 ++ educationalClause else o1).
  assert (S2 : mentions o2 "explain" || mentions o2 "narrat" = true
               /\ existsb (mentions o2) educationalTone = true).
  { subst o2. destruct (existsb (mentions o1) educationalTone) eqn:E; cbn [negb]; [auto |].
    split; [now apply orb_mentions_app | now apply signal_prepend]. }
  destruct S2 as [S2 T2].
  exists (if String.length s <? 50 then o2 ++ expansionClause else o2).
  split; [reflexivity |].
  destruct (String.length s <? 50); [| auto].
  split; [now apply orb_mentions_app | now apply signal_app].
Qed.

Lemma orb_mentions_visible (x a b : string) (ka kb : ascii) :
  isWhiteSpace ka = false -> isWhiteSpace kb = false ->
  mentions x (String ka a) || mentions x (String kb b) = true -> truthy (trim x) = true.
Proof.
  intros Ha Hb H. apply orb_true_iff in H as [H | H].
  - exact (mentions_visible x a ka Ha H).
  - exact (mentions_visible x b kb Hb H).
Qed.

Lemma imageSignals_visible (x : string) : imageSignals x -> truthy (trim x) = true.
Proof. intros [H _]. eapply mentions_visible; [| exact H]. reflexivity. Qed.

Lemma videoSignals_visible (x : string) : videoSignals x -> truthy (trim x) = true.
Proof. intros [H _]. eapply orb_mentions_visible; [| | exact H]; reflexivity. Qed.

Lemma voiceSignals_visible (x : string) : voiceSignals x -> truthy (trim x) = true.
Proof. intros [H _]. eapply orb_mentions_visible; [| | exact H]; reflexivity. Qed.

Lemma orb_mentions_trim (x a b : string) :
  solid a = true -> solid b = true ->
  mentions x a || mentions x b = true -> mentions (trim x) a || mentions (trim x) b = true.
Proof.
  intros Ha Hb H. apply orb_true_iff in H as [H | H].
  - now rewrite (mentions_trim x a Ha H).
  - rewrite (mentions_trim x b Hb H). apply orb_true_r.
Qed.

Lemma signal_trim (keywords : list string) (x : string) :
  forallb solid keywords = true ->
  existsb (mentions x) keywords = true -> existsb (mentions (trim x)) keywords = true.
Proof.
  intro Hs. apply signal_kept; [exact Hs |]. intros kw Hk. now apply mentions_trim.
Qed.

Lemma imageSignals_trim (x : string) : imageSignals x -> imageSignals (trim x).
Proof.
  intros (E & V & S). repeat split.
  - now apply mentions_trim.
  - now apply signal_trim.
  - now apply signal_trim.
Qed.

Lemma videoSignals_trim (x : string) : videoSignals x -> videoSignals (trim x).
Proof.
  intros (S & M & D). repeat split.
  - now apply orb_mentions_trim.
  - now apply signal_trim.
  - apply orb_true_iff in D as [D | D].
    + rewrite (orb_mentions_trim x "brief" "quick" eq_refl eq_refl D). reflexivity.
    + rewrite (mentions_trim x "short" eq_refl D). apply orb_true_r.
Qed.

Lemma voiceSignals_trim (x : string) : voiceSignals x -> voiceSignals (trim x).
Proof.
  intros (N & T). split; [now apply orb_mentions_trim | now apply signal_trim].
Qed.

(** The output of each optimizer: empty for a blank input, otherwise a
    trimmed text that carries the optimizer's signals. *)
Lemma optimizeImagePrompt_cases (s : string) :
  trim s = "" /\ optimizeImagePrompt s = "" \/
  truthy (trim s) = true /\
  exists x, optimizeImagePrompt s = trim x /\ imageSignals x.
Proof.
  destruct (trim s) as [| c r] eqn:E.
  - left. split; [reflexivity |]. unfold optimizeImagePrompt. now rewrite E.
  - right. split; [reflexivity |]. apply imageSignals_reached. now rewrite E.
Qed.

Lemma optimizeVideoPrompt_cases (s : string) :
  trim s = "" /\ optimizeVideoPrompt s = "" \/
  truthy (trim s) = true /\
  exists x, optimizeVideoPrompt s = trim x /\ videoSignals x.
Proof.
  destruct (trim s) as [| c r] eqn:E.
  - left. split; [reflexivity |]. unfold optimizeVideoPrompt. now rewrite E.
  - right. split; [reflexivity |]. apply videoSignals_reached. now rewrite E.
Qed.

Lemma optimizeVoiceScript_cases (s : string) :
  trim s = "" /\ optimizeVoiceScript s = "" \/
  truthy (trim s) = true /\
  exists x, optimizeVoiceScript s = trim x /\ voiceSignals x.
Proof.
  destruct (trim s) as [| c r] eqn:E.
  - left. split; [reflexivity |]. unfold optimizeVoiceScript. now rewrite E.
  - right. split; [reflexivity |]. apply voiceSignals_reached. now rewrite E.
Qed.

Lemma truthy_nonempty (s : string) : truthy s = true -> s <> "".
Proof. destruct s; [discriminate | discriminate]. Qed.

(** X11: an optimizer returns the empty string only for an input that
    trim() leaves empty: any other input gives a non-empty output. *)
Theorem optimizers_empty_only_for_blank : forall s : string,
  (optimizeImagePrompt s = "" <-> trim s = "") /\
  (optimizeVideoPrompt s = "" <-> trim s = "") /\
  (optimizeVoiceScript s = "" <-> trim s = "").
Proof.
  intro s. split; [| split]; split.
  - destruct (optimizeImagePrompt_cases s) as [[Hb _] | [_ (x & -> & Hx)]]; [auto |].
    intro E. now apply truthy_nonempty in E; [| apply imageSignals_visible].
  - destruct (optimizeImagePrompt_cases s) as [[_ Ho] | [Hb _]]; [auto |].
    intro E. rewrite E in Hb. discriminate Hb.
  - destruct (optimizeVideoPrompt_cases s) as [[Hb _] | [_ (x & -> & Hx)]]; [auto |].
    intro E. now apply truthy_nonempty in E; [| apply videoSignals_visible].
  - destruct (optimizeVideoPrompt_cases s) as [[_ Ho] | [Hb _]]; [auto |].
    intro E. rewrite E in Hb. discriminate Hb.
  - destruct (optimizeVoiceScript_cases s) as [[Hb _] | [_ (x & -> & Hx)]]; [auto |].
    intro E. now apply truthy_nonempty in E; [| apply voiceSignals_visible].
  - destruct (optimizeVoiceScript_cases s) as [[_ Ho] | [Hb _]]; [auto |].
    intro E. rewrite E in Hb. discriminate Hb.
Qed.

(** X12: the output of an optimizer never begins or ends with whitespace:
    trimming it again changes nothing. *)
Theorem optimizers_output_trimmed : forall s : string,
  trim (optimizeImagePrompt s) = optimizeImagePrompt s /\
  trim (optimizeVideoPrompt s) = optimizeVideoPrompt s /\
  trim (optimizeVoiceScript s) = optimizeVoiceScript s.
Proof.
  intro s. split; [| split].
  - destruct (optimizeImagePrompt_cases s) as [[_ ->] | [_ (x & -> & _)]];
      [reflexivity | apply trim_idempotent].
  - destruct (optimizeVideoPrompt_cases s) as [[_ ->] | [_ (x & -> & _)]];
      [reflexivity | apply trim_idempotent].
  - destruct (optimizeVoiceScript_cases s) as [[_ ->] | [_ (x & -> & _)]];
      [reflexivity | apply trim_idempotent].
Qed.

(** X13: for an input that trim() does not leave empty each optimizer
    resolves what it looks for.  The optimized image prompt mentions
    educational, a visual word and a style keyword; the optimized video
    prompt mentions scene or sequence, a motion word and brief, quick or
    short; the optimized voice script mentions explain or narrat and an
    educational-tone keyword. *)
Theorem optimizers_resolve_signals : forall s : string,
  truthy (trim s) = true ->
  imageSignals (optimizeImagePrompt s) /\
  videoSignals (optimizeVideoPrompt s) /\
  voiceSignals (optimizeVoiceScript s).
Proof.
  intros s Hs. split; [| split].
  - destruct (optimizeImagePrompt_cases s) as [[Hb _] | [_ (x & -> & Hx)]];
      [rewrite Hb in Hs; discriminate Hs | now apply imageSignals_trim].
  - destruct (optimizeVideoPrompt_cases s) as [[Hb _] | [_ (x & -> & Hx)]];
      [rewrite Hb in Hs; discriminate Hs | now apply videoSignals_trim].
  - destruct (optimizeVoiceScript_cases s) as [[Hb _] | [_ (x & -> & Hx)]];
      [rewrite Hb in Hs; discriminate Hs | now apply voiceSignals_trim].
Qed.

Lemma optimizers_resolve_signals_witness :
  truthy (trim " A cell. ") = true /\
  imageSignals (optimizeImagePrompt " A cell. ") /\
  videoSignals (optimizeVideoPrompt " A cell. ") /\
  voiceSignals (optimizeVoiceScript " A cell. ").
Proof.
  split; [reflexivity | apply optimizers_resolve_signals; reflexivity].
Defined.

Lemma trimStart_trim (s : string) : trimStart (trim s) = trim s.
Proof.
  unfold trim.
  destruct (trimStart_shape s) as [-> | (c & r & -> & Hc)]; [reflexivity |].
  destruct (trimEnd_head c r Hc) as (r' & ->). now apply trimStart_visible.
Qed.

(** A trimmed text that carries the three image signals is returned as it
    is. *)
Lemma optimizeImagePrompt_fixed (o : string) :
  imageSignals o -> trim o = o -> optimizeImagePrompt o = o.
Proof.
  intros Ho Ht. pose proof (imageSignals_visible o Ho) as Hv.
  destruct Ho as (E & V & S). unfold optimizeImagePrompt.
  rewrite Hv. cbn [negb]. rewrite E. cbn [negb]. rewrite V. cbn [negb].
  rewrite S. cbn [negb]. exact Ht.
Qed.

Lemma optimizeVideoPrompt_fixed (o : string) :
  videoSignals o -> trim o = o -> optimizeVideoPrompt o = o.
Proof.
  intros Ho Ht. pose proof (videoSignals_visible o Ho) as Hv.
  destruct Ho as (S & M & D). unfold optimizeVideoPrompt.
  assert (C1 : negb (mentions o "scene") && negb (mentions o "sequence") = false)
    by (rewrite <- negb_orb, S; reflexivity).
  assert (C3 : negb (mentions o "brief") && negb (mentions o "quick")
               && negb (mentions o "short") = false)
    by (rewrite <- !negb_orb, D; reflexivity).
  rewrite Hv. cbn [negb]. rewrite C1, M. cbn [negb]. rewrite C3. exact Ht.
Qed.

(** X14: optimizeImagePrompt and optimizeVideoPrompt are idempotent: a second
    pass over an optimized prompt adds no prefix and no clause. *)
Theorem optimizers_idempotent : forall s : string,
  optimizeImagePrompt (optimizeImagePrompt s) = optimizeImagePrompt s /\
  optimizeVideoPrompt (optimizeVideoPrompt s) = optimizeVideoPrompt s.
Proof.
  intro s. split.
  - destruct (optimizeImagePrompt_cases s) as [[_ ->] | [_ (x & -> & Hx)]];
      [reflexivity |].
    apply optimizeImagePrompt_fixed; [now apply imageSignals_trim | apply trim_idempotent].
  - destruct (optimizeVideoPrompt_cases s) as [[_ ->] | [_ (x & -> & Hx)]];
      [reflexivity |].
    apply optimizeVideoPrompt_fixed; [now apply videoSignals_trim | apply trim_idempotent].
Qed.

Lemma length_append (s t : string) :
  String.length (s ++ t) = String.length s + String.length t.
Proof. induction s as [| c s IH]; cbn; [reflexivity | now rewrite IH]. Qed.

(** A second pass of the voice optimizer over a trimmed text with both voice
    signals can only add the expansion clause, and does so below 50
    characters. *)
Lemma optimizeVoiceScript_second (o : string) :
  voiceSignals o -> trim o = o ->
  optimizeVoiceScript o = if String.length o <? 50 then o ++ expansionClause else o.
Proof.
  intros Ho Ht. pose proof (voiceSignals_visible o Ho) as Hv.
  destruct Ho as (N & T). unfold optimizeVoiceScript.
  assert (C1 : negb (mentions o "explain") && negb (mentions o "narrat") = false)
    by (rewrite <- negb_orb, N; reflexivity).
  rewrite Hv. cbn [negb]. rewrite C1, T. cbn [negb].
  destruct (String.length o <? 50); [| exact Ht].
  rewrite trim_append; [| exact Hv | reflexivity | discriminate].
  now rewrite <- Ht, trimStart_trim.
Qed.

(** X15: the voice optimizer settles after at most two passes.  A second
    pass over its output returns it unchanged or with the expansion clause
    appended (when the output is shorter than 50 characters), and a third
    pass changes nothing any more. *)
Theorem optimizeVoiceScript_settles : forall s : string,
  let o := optimizeVoiceScript s in
  optimizeVoiceScript o = (if (0 <? String.length o) && (String.length o <? 50)
                           then o ++ expansionClause else o) /\
  optimizeVoiceScript (optimizeVoiceScript o) = optimizeVoiceScript o.
Proof.
  intros s o. subst o.
  destruct (optimizeVoiceScript_cases s) as [[_ ->] | [_ (x & -> & Hx)]];
    [split; reflexivity |].
  pose proof (voiceSignals_trim x Hx) as Ho.
  pose proof (trim_idempotent x) as Ht.
  pose proof (truthy_nonempty _ (voiceSignals_visible _ Ho)) as Hne.
  rewrite Ht in Hne.
  assert (Hpos : (0 <? String.length (trim x)) = true)
    by (destruct (trim x); [contradiction | reflexivity]).
  rewrite Hpos. cbn [andb].
  rewrite (optimizeVoiceScript_second (trim x) Ho Ht).
  split; [reflexivity |].
  destruct (String.length (trim x) <? 50) eqn:E.
  - rewrite optimizeVoiceScript_second.
    + rewrite length_append.
      replace (String.length (trim x) + String.length expansionClause <? 50) with false;
        [reflexivity |].
      symmetry. apply Nat.ltb_ge. cbn. lia.
    + destruct Ho as [N T]. split; [now apply orb_mentions_app | now apply signal_app].
    + rewrite trim_append; [| exact (voiceSignals_visible _ Ho) | reflexivity | discriminate].
      now rewrite <- Ht, trimStart_trim.
  - rewrite (optimizeVoiceScript_second (trim x) Ho Ht). now rewrite E.
Qed.

(** The voice optimizer is not idempotent: an input of 53 characters that
    trims to 13 is returned trimmed, and the second pass finds it short. *)
Example optimizeVoiceScript_second_pass :
  let s := "explain learn                                        " in
  optimizeVoiceScript s = "explain learn" /\
  optimizeVoiceScript (optimizeVoiceScript s) = "explain learn" ++ expansionClause.
Proof. split; reflexivity. Qed.

Lemma append_assoc (s t u : string) : (s ++ t) ++ u = s ++ (t ++ u).
Proof. induction s as [| c s IH]; cbn; [reflexivity | now rewrite IH]. Qed.

Lemma append_empty (s : string) : s ++ "" = s.
Proof. induction s as [| c s IH]; cbn; [reflexivity | now rewrite IH]. Qed.

(** What trimEnd leaves of a text is a prefix of what it leaves of any
    extension of the text. *)
Lemma trimEnd_prefix (z extra : string) :
  startsWith (trimEnd z) (trimEnd (z ++ extra)) = true.
Proof.
  induction z as [| c z IH]; [reflexivity |].
  cbn [append trimEnd].
  destruct (trimEnd z) as [| d r] eqn:Ez.
  - destruct (isWhiteSpace c) eqn:Ec; [reflexivity |].
    destruct (trimEnd (z ++ extra)); cbn; now rewrite Ascii.eqb_refl.
  - destruct (trimEnd (z ++ extra)) as [| d' r'] eqn:Ee; [discriminate IH |].
    cbn [startsWith] in *. now rewrite Ascii.eqb_refl, IH.
Qed.

Lemma trim_prefix (s extra : string) :
  startsWith (trim s) (trim (s ++ extra)) = true.
Proof.
  unfold trim. destruct (trimStart_shape s) as [E | (c & r & E & Hc)].
  - now rewrite E.
  - rewrite trimStart_app by (rewrite E; discriminate). apply trimEnd_prefix.
Qed.

(** X16: the video and the voice optimizer only append.  Their output
    begins with the input, trimmed, and anything they add comes after it. *)
Theorem optimizers_only_append : forall s : string,
  startsWith (trim s) (optimizeVideoPrompt s) = true /\
  startsWith (trim s) (optimizeVoiceScript s) = true.
Proof.
  intro s. unfold optimizeVideoPrompt, optimizeVoiceScript.
  destruct (truthy (trim s)) eqn:E; cbn [negb];
    [| destruct (trim s); [split; reflexivity | discriminate E]].
  split.
  - repeat match goal with
           | |- context [if ?b then _ else _] => destruct b
           end;
      rewrite ?append_assoc; try apply trim_prefix;
      rewrite <- (append_empty s) at 2; apply trim_prefix.
  - repeat match goal with
           | |- context [if ?b then _ else _] => destruct b
           end;
      rewrite ?append_assoc; try apply trim_prefix;
      rewrite <- (append_empty s) at 2; apply trim_prefix.
Qed.

End Rewrites.

(* ================================================================== *)
(** ** More on the scene collection *)
(* ================================================================== *)

Section Editing.
Import JS Spec SceneCollection Component Invariants Samples.

Lemma denseFrom_mapIndexFrom (n : nat) (xs : list Scene) :
  denseFrom (Z.of_nat n + 1) (mapIndexFrom withOrder n xs) = true.
Proof.
  revert n. induction xs as [| x xs IH]; intro n; [reflexivity |].
  cbn [mapIndexFrom denseFrom withOrder scene_order].
  rewrite Z.eqb_refl. cbn [andb].
  replace (Z.of_nat n + 1 + 1)%Z with (Z.of_nat (S n) + 1)%Z by lia. apply IH.
Qed.

Lemma unordered_mapIndexFrom (n : nat) (xs : list Scene) :
  map unordered (mapIndexFrom withOrder n xs) = map unordered xs.
Proof.
  revert n. induction xs as [| x xs IH]; intro n; [reflexivity |].
  cbn [mapIndexFrom map]. now rewrite IH.
Qed.

Lemma filter_excludes_id (sceneId : string) (xs : list Scene) :
  existsb (String.eqb sceneId)
          (map id (filter (fun s => negb (String.eqb (id s) sceneId)) xs)) = false.
Proof.
  induction xs as [| x xs IH]; [reflexivity |].
  cbn [filter]. destruct (String.eqb (id x) sceneId) eqn:E; cbn [negb]; [exact IH |].
  cbn [map existsb]. now rewrite String.eqb_sym, E, IH.
Qed.

Lemma map_id_unordered (xs ys : list Scene) :
  map unordered xs = map unordered ys -> map id xs = map id ys.
Proof.
  revert ys. induction xs as [| x xs IH]; intros [| y ys] H; try discriminate H; [reflexivity |].
  cbn in H. injection H as Hid _ _ _ Hrest. cbn. now rewrite Hid, (IH ys Hrest).
Qed.

(** X17: removing a scene from a collection of two or more leaves the
    other scenes in their order, with their ids, texts and analyses, numbers
    them 1, 2, ... without gaps, and leaves no scene with the removed id. *)
Theorem removeScene_renumbers_densely : forall (sceneId : string) (xs : list Scene),
  2 <= List.length xs ->
  let rest := fst (removeScene sceneId xs) in
  dense rest = true /\
  map unordered rest
  = map unordered (filter (fun s => negb (String.eqb (id s) sceneId)) xs) /\
  existsb (String.eqb sceneId) (map id rest) = false.
Proof.
  intros sceneId xs Hlen rest. subst rest. unfold removeScene.
  destruct (Nat.leb_spec (List.length xs) 1) as [Hle | _]; [lia |].
  cbn [fst]. unfold mapIndex, dense.
  split; [apply (denseFrom_mapIndexFrom 0) |].
  split; [apply unordered_mapIndexFrom |].
  rewrite (map_id_unordered _ _ (unordered_mapIndexFrom 0 _)).
  apply filter_excludes_id.
Qed.

Lemma removeScene_renumbers_densely_witness :
  2 <= List.length threeScenes /\
  dense (fst (removeScene "1" threeScenes)) = true /\
  map scene_order (fst (removeScene "1" threeScenes)) = [1%Z; 2%Z].
Proof.
  split; [cbn; lia |].
  split; [apply (removeScene_renumbers_densely "1" threeScenes); cbn; lia | reflexivity].
Defined.

(** X18: updateScene touches only the scenes with the given id.  It keeps
    the number of scenes, their ids and their orders; in every scene with
    that id it stores the new text in the chosen field, keeps the other field
    and drops the analysis; every other scene stays as it was. *)
Theorem updateScene_effect :
  forall (sceneId : string) (field : Field) (value : string) (prev : list Scene),
  let next := updateScene sceneId field value prev in
  map id next = map id prev /\
  map scene_order next = map scene_order prev /\
  Forall2 (fun old new =>
             if String.eqb (id old) sceneId then
               analysis new = None /\
               match field with
               | ImagePromptField =>
                   image_prompt new = value /\ narration_script new = narration_script old
               | NarrationScriptField =>
                   narration_script new = value /\ image_prompt new = image_prompt old
               end
             else new = old)
          prev next.
Proof.
  intros sceneId field value prev next. subst next. unfold updateScene.
  induction prev as [| x xs (IH1 & IH2 & IH3)]; [repeat split; constructor |].
  cbn [map]. split; [| split].
  - rewrite IH1. destruct (String.eqb (id x) sceneId); [destruct field |]; reflexivity.
  - rewrite IH2. destruct (String.eqb (id x) sceneId); [destruct field |]; reflexivity.
  - constructor; [| exact IH3].
    destruct (String.eqb (id x) sceneId); [destruct field; cbn; auto | reflexivity].
Qed.

Lemma fresh_mapIndexFrom (n : nat) (xs : list Scene) :
  fresh xs -> fresh (mapIndexFrom withOrder n xs).
Proof.
  unfold fresh. intro H. revert n.
  induction H as [| x xs Hx _ IH]; intro n; cbn [mapIndexFrom]; constructor; auto.
Qed.

Lemma fresh_filter (p : Scene -> bool) (xs : list Scene) : fresh xs -> fresh (filter p xs).
Proof.
  unfold fresh. intro H. induction H as [| x xs Hx _ IH]; cbn; [constructor |].
  destruct (p x); [constructor |]; auto.
Qed.

Lemma fresh_imported (now : Z) (n : nat) (rows : list string) :
  fresh (mapIndexFrom (sceneOfLine now) n rows).
Proof.
  revert n. induction rows as [| r rows IH]; intro n; cbn [mapIndexFrom]; constructor.
  - left. reflexivity.
  - apply IH.
Qed.

(** X19: no operation leaves a stale analysis behind.  When every attached
    analysis is the analysis of the text its scene holds, this is still so
    after updateScene (it drops the analysis of what it edits), addNewScene,
    removeScene and analyzeAllScenes; and a successful import yields scenes
    without any analysis. *)
Theorem analyses_stay_fresh :
  forall (xs guard : list Scene) (sceneId : string) (field : Field) (value : string) (now : Z),
  fresh xs ->
  fresh (updateScene sceneId field value xs) /\
  fresh (addNewScene now xs) /\
  fresh (fst (removeScene sceneId xs)) /\
  fresh (fst (analyzeAllScenes guard xs)) /\
  (forall csv imported,
     handleCSVImport now csv = ImportSuccessful imported ->
     existsb hasAnalysis imported = false).
Proof.
  intros xs guard sceneId field value now H.
  split; [| split; [| split; [| split]]].
  - unfold updateScene, fresh in *. induction H as [| x l Hx _ IH]; cbn; constructor; auto.
    destruct (String.eqb (id x) sceneId); [| exact Hx].
    left. destruct field; reflexivity.
  - unfold addNewScene, fresh in *. apply Forall_app. split; [exact H |].
    constructor; [left; reflexivity | constructor].
  - unfold removeScene. destruct (List.length xs <=? 1); cbn [fst]; [exact H |].
    apply fresh_mapIndexFrom, fresh_filter, H.
  - unfold analyzeAllScenes. destruct (forallb _ guard); cbn [fst]; [exact H |].
    unfold fresh in *. induction H as [| x l Hx _ IH]; cbn; constructor; auto.
    unfold analyzeScene. destruct (hasContent x); [right; reflexivity | exact Hx].
  - intros csv imported Himp. unfold handleCSVImport in Himp.
    destruct (filter _ (splitChar _ csv)) as [| header rows]; [discriminate |].
    destruct (_ || _); [discriminate |]. injection Himp as <-.
    generalize 1. induction rows as [| r rows IH]; intro n; [reflexivity |].
    cbn [mapIndexFrom existsb]. apply IH.
Qed.

Lemma analyses_stay_fresh_witness :
  fresh [analysedScene] /\
  fresh (updateScene "7" NarrationScriptField "We learn about towns." [analysedScene]) /\
  fresh (fst (analyzeAllScenes [analysedScene] [analysedScene])).
Proof.
  assert (H : fresh [analysedScene])
    by (constructor; [right; reflexivity | constructor]).
  destruct (analyses_stay_fresh [analysedScene] [analysedScene] "7" NarrationScriptField
              "We learn about towns." 0 H) as (Hu & _ & _ & Ha & _).
  split; [exact H |]. split; [exact Hu | exact Ha].
Defined.

(** X20: once analyzeAllScenes has passed its guard, every scene that holds
    text carries the analysis of exactly that text, every scene without text
    keeps what it had, and ids, orders and texts are as before. *)
Theorem analyzeAllScenes_effect : forall guard prev : list Scene,
  existsb hasContent guard = true ->
  let next := fst (analyzeAllScenes guard prev) in
  map id next = map id prev /\
  map triple next = map triple prev /\
  Forall2 (fun old new =>
             if hasContent old
             then analysis new
                  = Some (PromptAnalyzer.analyzePrompt (image_prompt old) (narration_script old))
             else new = old)
          prev next.
Proof.
  intros guard prev Hg next. subst next. unfold analyzeAllScenes.
  assert (Hguard : forallb (fun s => negb (truthy (image_prompt s))
                                     && negb (truthy (narration_script s))) guard = false).
  { apply existsb_exists in Hg as (s & Hin & Hs).
    apply not_true_is_false. intro Hall. rewrite forallb_forall in Hall.
    specialize (Hall s Hin). unfold hasContent in Hs.
    rewrite <- negb_orb, Hs in Hall. discriminate. }
  rewrite Hguard. cbn [fst].
  induction prev as [| x xs (IH1 & IH2 & IH3)]; [repeat split; constructor |].
  cbn [map]. rewrite IH1, IH2.
  assert (Hid : id (analyzeScene x) = id x)
    by (unfold analyzeScene; destruct (hasContent x); reflexivity).
  assert (Ht : triple (analyzeScene x) = triple x)
    by (unfold analyzeScene; destruct (hasContent x); reflexivity).
  rewrite Hid, Ht. split; [reflexivity |]. split; [reflexivity |].
  constructor; [| exact IH3].
  unfold analyzeScene. destruct (hasContent x); reflexivity.
Qed.

Lemma analyzeAllScenes_effect_witness :
  existsb hasContent plainScenes = true /\
  map triple (fst (analyzeAllScenes plainScenes plainScenes)) = map triple plainScenes.
Proof.
  split; [reflexivity |].
  apply (analyzeAllScenes_effect plainScenes plainScenes). reflexivity.
Defined.

Lemma denseFrom_orders (k : Z) (xs ys : list Scene) :
  map scene_order xs = map scene_order ys -> denseFrom k xs = denseFrom k ys.
Proof.
  revert k ys. induction xs as [| x xs IH]; intros k [| y ys] H; try discriminate H;
    [reflexivity |].
  cbn in H. injection H as Ho Hrest. cbn. now rewrite Ho, (IH _ ys Hrest).
Qed.

Lemma denseFrom_app (k : Z) (xs ys : list Scene) :
  denseFrom k (xs ++ ys)%list
  = denseFrom k xs && denseFrom (k + Z.of_nat (List.length xs)) ys.
Proof.
  revert k. induction xs as [| x xs IH]; intro k.
  - cbn. now rewrite Z.add_0_r.
  - cbn [app denseFrom List.length]. rewrite IH, andb_assoc.
    now replace (k + 1 + Z.of_nat (List.length xs))%Z
      with (k + Z.of_nat (S (List.length xs)))%Z by lia.
Qed.

(** X21: the numbering 1, 2, ..., n of a collection survives every editing
    operation: updateScene, addNewScene, removeScene and analyzeAllScenes
    all return a collection that is numbered without gaps when the one they
    start from is. *)
Theorem dense_orders_kept :
  forall (xs guard : list Scene) (sceneId : string) (field : Field) (value : string) (now : Z),
  dense xs = true ->
  dense (updateScene sceneId field value xs) = true /\
  dense (addNewScene now xs) = true /\
  dense (fst (removeScene sceneId xs)) = true /\
  dense (fst (analyzeAllScenes guard xs)) = true.
Proof.
  intros xs guard sceneId field value now H. unfold dense in *.
  split; [| split; [| split]].
  - rewrite <- H. apply denseFrom_orders. unfold updateScene. rewrite map_map.
    apply map_ext. intro x. destruct (String.eqb (id x) sceneId); [destruct field |];
      reflexivity.
  - unfold addNewScene. rewrite denseFrom_app, H. cbn.
    rewrite Z.add_comm, Z.eqb_refl. reflexivity.
  - unfold removeScene. destruct (List.length xs <=? 1); cbn [fst]; [exact H |].
    apply (denseFrom_mapIndexFrom 0).
  - unfold analyzeAllScenes. destruct (forallb _ guard); cbn [fst]; [exact H |].
    rewrite <- H. apply denseFrom_orders. rewrite map_map.
    apply map_ext. intro x. unfold analyzeScene. destruct (hasContent x); reflexivity.
Qed.

Lemma dense_orders_kept_witness :
  dense threeScenes = true /\
  dense (addNewScene 1750016107019 threeScenes) = true /\
  dense (fst (removeScene "2" threeScenes)) = true.
Proof.
  destruct (dense_orders_kept threeScenes threeScenes "2" ImagePromptField "" 1750016107019
              eq_refl) as (_ & Ha & Hr & _).
  split; [reflexivity |]. split; [exact Ha | exact Hr].
Defined.

Lemma total_between (lo hi : Z) (xs : list Scene) (acc : Z) :
  forallb (overallWithin lo hi) xs = true ->
  forallb hasAnalysis xs = true ->
  (acc + lo * Z.of_nat (List.length xs)
   <= fold_left (fun sum scene => (sum + overallScoreOr0 scene)%Z) xs acc
   <= acc + hi * Z.of_nat (List.length xs))%Z.
Proof.
  revert acc. induction xs as [| x xs IH]; intros acc Hw Ha; [cbn; lia |].
  cbn [forallb] in Hw, Ha. apply andb_true_iff in Hw as [Hx Hw].
  apply andb_true_iff in Ha as [Hax Ha].
  cbn [fold_left List.length]. specialize (IH (acc + overallScoreOr0 x)%Z Hw Ha).
  unfold overallWithin, overallScoreOr0, hasAnalysis in *.
  destruct (analysis x); [| discriminate].
  apply andb_true_iff in Hx as [H1 H2]. apply Z.leb_le in H1, H2. lia.
Qed.

Lemma forallb_filter {A : Type} (p q : A -> bool) (l : list A) :
  forallb p l = true -> forallb p (filter q l) = true.
Proof.
  induction l as [| x l IH]; [reflexivity |].
  cbn. intro H. apply andb_true_iff in H as [Hx Hl].
  destruct (q x); cbn; [rewrite Hx |]; auto.
Qed.

Lemma forallb_filter_self {A : Type} (q : A -> bool) (l : list A) :
  forallb q (filter q l) = true.
Proof.
  induction l as [| x l IH]; [reflexivity |].
  cbn. destruct (q x) eqn:E; cbn; [rewrite E |]; auto.
Qed.

(** X22: the project score is a mean: when the overall score of every
    analysed scene lies between lo and hi, so does the score that
    getOverallAnalysis returns, and its readiness label is the one the
    single-scene thresholds give for that score. *)
Theorem getOverallAnalysis_between : forall (lo hi : Z) (xs : list Scene) (o : Overall),
  forallb (overallWithin lo hi) xs = true ->
  getOverallAnalysis xs = Some o ->
  (lo <= overall_score o <= hi)%Z /\
  readiness o = PromptAnalyzer.readinessOf (overall_score o).
Proof.
  intros lo hi xs o Hw Ho. unfold getOverallAnalysis in Ho.
  destruct (Nat.eqb_spec (List.length (filter hasAnalysis xs)) 0) as [| Hn]; [discriminate |].
  injection Ho as <-. cbn [overall_score readiness]. split; [| reflexivity].
  pose proof (total_between lo hi (filter hasAnalysis xs) 0
                (forallb_filter _ _ _ Hw) (forallb_filter_self _ _)) as Ht.
  set (n := List.length (filter hasAnalysis xs)) in *.
  set (t := fold_left _ _ 0%Z) in *.
  assert (Hpos : (0 < inject_Z (Z.of_nat n))%Q).
  { change 0%Q with (inject_Z 0). rewrite <- Zlt_Qlt. lia. }
  apply round_between.
  - apply Qle_shift_div_l; [exact Hpos |].
    rewrite <- inject_Z_mult, <- Zle_Qle. lia.
  - apply Qle_shift_div_r; [exact Hpos |].
    rewrite <- inject_Z_mult, <- Zle_Qle. lia.
Qed.

Lemma getOverallAnalysis_between_witness :
  let xs := analysedScene :: threeScenes in
  forallb (overallWithin 0 100) xs = true /\
  getOverallAnalysis xs = Some (mkOverall 17 Poor) /\
  (0 <= 17 <= 100)%Z.
Proof.
  split; [reflexivity |]. split; [reflexivity |].
  apply (getOverallAnalysis_between 0 100 (analysedScene :: threeScenes) (mkOverall 17 Poor));
    reflexivity.
Defined.

(** X23: the colour of the project score and the colour of the readiness
    badge always agree: getScoreColor of a score and getStatusClasses of the
    readiness label of that score name the same one of green, blue, yellow
    and red. *)
Theorem score_colour_matches_badge : forall sc : Z,
  map (includes (getScoreColor sc)) colours
  = map (includes (getStatusClasses (readinessLabel (PromptAnalyzer.readinessOf sc)))) colours
  /\ existsb (includes (getScoreColor sc)) colours = true.
Proof.
  intro sc. unfold getScoreColor, PromptAnalyzer.readinessOf.
  destruct (80 <=? sc)%Z; [split; reflexivity |].
  destruct (60 <=? sc)%Z; [split; reflexivity |].
  destruct (40 <=? sc)%Z; split; reflexivity.
Qed.

End Editing.

(* ================================================================== *)
(** ** The history: undo and redo *)
(* ================================================================== *)

Section History.
Import JS SceneCollection Component Invariants Samples.

Lemma slice_prefix {A : Type} (xs : list A) (e : Z) :
  (0 <= e <= Z.of_nat (List.length xs))%Z -> slice xs 0 e = firstn (Z.to_nat e) xs.
Proof.
  intro H. unfold slice, relativeIndex.
  destruct (Z.ltb_spec e 0) as [Hneg | _]; [lia |].
  change (0 <? 0)%Z with false. cbn beta iota.
  rewrite Z.min_l by lia. rewrite Z.min_l by lia.
  now rewrite Z.sub_0_r.
Qed.

Lemma sliceFrom_last {A : Type} (xs : list A) :
  sliceFrom xs (- maxHistorySize) = skipn (List.length xs - 50) xs.
Proof.
  unfold sliceFrom, slice, relativeIndex, maxHistorySize.
  change (Z.opp 50) with (-50)%Z.
  change (-50 <? 0)%Z with true. cbn beta iota.
  destruct (Z.ltb_spec (Z.of_nat (List.length xs)) 0) as [Hneg | _]; [lia |].
  rewrite Z.min_id.
  replace (Z.to_nat (Z.max (Z.of_nat (List.length xs) + -50) 0)) with (List.length xs - 50) by lia.
  apply firstn_all2. rewrite length_skipn. lia.
Qed.

Lemma at_nat {A : Type} (xs : list A) (i : nat) : at_ xs (Z.of_nat i) = nth_error xs i.
Proof.
  unfold at_. destruct (Z.ltb_spec (Z.of_nat i) 0); [lia |]. now rewrite Nat2Z.id.
Qed.

(** What saveToHistory leaves: the entries up to the current one, the new
    collection after them, and of all that the last 50. *)
Lemma saveToHistory_shape (new : list Scene) (s : Session) (i : nat) :
  historyIndex s = Z.of_nat i -> i < List.length (history s) ->
  history (saveToHistory new s)
  = skipn (S (S i) - 50) (firstn (S i) (history s) ++ [new])%list /\
  historyIndex (saveToHistory new s) = Z.of_nat (Nat.min (S i) 49).
Proof.
  intros Hi Hlt. unfold saveToHistory. cbn [history historyIndex]. rewrite Hi. split.
  - rewrite slice_prefix by lia. rewrite sliceFrom_last.
    replace (Z.to_nat (Z.of_nat i + 1)) with (S i) by lia.
    rewrite length_app, length_firstn. cbn [List.length].
    now replace (Init.Nat.min (S i) (List.length (history s)) + 1) with (S (S i)) by lia.
  - unfold maxHistorySize. lia.
Qed.

(** After a recorded change, undo returns to the collection before it and
    redo to the one after it. *)
Lemma commit_undoes (new : list Scene) (s : Session) :
  settled s -> undoes s (commit new s).
Proof.
  intros (Hidx & Hmax & Hcur).
  set (i := Z.to_nat (historyIndex s)).
  assert (Hi : historyIndex s = Z.of_nat i) by (subst i; lia).
  assert (Hlt : i < List.length (history s)) by lia.
  unfold maxHistorySize in Hmax.
  destruct (saveToHistory_shape new s i Hi Hlt) as [Hh Hx].
  rewrite Hi, at_nat in Hcur.
  set (nh := (firstn (S i) (history s) ++ [new])%list) in *.
  assert (Hnh : List.length nh = S (S i))
    by (subst nh; rewrite length_app, length_firstn; cbn [List.length]; lia).
  assert (Hlen : List.length (history (saveToHistory new s)) = S (Nat.min (S i) 49))
    by (rewrite Hh, length_skipn, Hnh; lia).
  assert (Hnew : nth_error (history (saveToHistory new s)) (Nat.min (S i) 49) = Some new).
  { rewrite Hh, nth_error_skipn.
    replace (S (S i) - 50 + Nat.min (S i) 49) with (S i) by lia.
    subst nh. rewrite nth_error_app2 by (rewrite length_firstn; lia).
    rewrite length_firstn.
    now replace (S i - Nat.min (S i) (List.length (history s))) with 0 by lia. }
  assert (Hold : nth_error (history (saveToHistory new s)) (Nat.min (S i) 49 - 1)
                 = Some (scenes s)).
  { rewrite Hh, nth_error_skipn.
    replace (S (S i) - 50 + (Nat.min (S i) 49 - 1)) with i by lia.
    subst nh. rewrite nth_error_app1 by (rewrite length_firstn; lia).
    rewrite nth_error_firstn. destruct (Nat.ltb_spec i (S i)); [exact Hcur | lia]. }
  assert (Hsettled : settled (commit new s)).
  { unfold settled, commit. cbn [scenes history historyIndex].
    rewrite Hx, Hlen, at_nat. unfold maxHistorySize. repeat split; try lia. exact Hnew. }
  split; [exact Hsettled |].
  unfold undo, commit. cbn [scenes history historyIndex]. rewrite Hx.
  destruct (Z.ltb_spec 0 (Z.of_nat (Nat.min (S i) 49))) as [_ | Hbad]; [| lia].
  replace (Z.of_nat (Nat.min (S i) 49) - 1)%Z with (Z.of_nat (Nat.min (S i) 49 - 1)) by lia.
  rewrite at_nat, Hold. eexists. split; [reflexivity |].
  cbn [scenes]. split; [reflexivity |]. split.
  - unfold settled. cbn [scenes history historyIndex].
    rewrite Hlen, at_nat. unfold maxHistorySize. repeat split; try lia. exact Hold.
  - unfold redo. cbn [scenes history historyIndex]. rewrite Hlen.
    destruct (Z.ltb_spec (Z.of_nat (Nat.min (S i) 49 - 1))
                (Z.of_nat (S (Nat.min (S i) 49)) - 1)) as [_ | Hbad]; [| lia].
    replace (Z.of_nat (Nat.min (S i) 49 - 1) + 1)%Z with (Z.of_nat (Nat.min (S i) 49)) by lia.
    now rewrite at_nat, Hnew.
Qed.

(** X24: in a session whose history is in step with the collection, every
    recorded edit can be undone and redone.  After updateScene, addNewScene
    or an accepted removeScene the history holds at most 50 entries, undo
    brings back exactly the collection from before the edit, and redo after
    that undo brings back the edited one. *)
Theorem edits_can_be_undone :
  forall (s : Session) (sceneId : string) (field : Field) (value : string) (now : Z),
  settled s ->
  undoes s (editScene sceneId field value s) /\
  undoes s (addScene now s) /\
  (2 <= List.length (scenes s) -> undoes s (dropScene sceneId s)).
Proof.
  intros s sceneId field value now Hs.
  split; [apply commit_undoes, Hs |]. split; [apply commit_undoes, Hs |].
  intro Hlen. unfold dropScene.
  destruct (Nat.leb_spec (List.length (scenes s)) 1) as [Hle | _]; [lia |].
  apply commit_undoes, Hs.
Qed.

Lemma edits_can_be_undone_witness :
  settled startSession /\
  undoes startSession (editScene "1" ImagePromptField "A calm lake at dusk" startSession).
Proof.
  assert (H : settled startSession).
  { unfold settled, maxHistorySize. cbn. repeat split; lia. }
  split; [exact H |].
  apply (edits_can_be_undone startSession "1" ImagePromptField "A calm lake at dusk" 0 H).
Defined.

(** X25: in such a session undo and redo never fail and keep the history
    in step; an undo that moves is reverted by redo and a redo that moves is
    reverted by undo; at the oldest entry undo does nothing and at the newest
    redo does nothing. *)
Theorem undo_redo_inverse : forall s : Session,
  settled s ->
  (exists u, undo s = Some u /\ settled u /\ history u = history s /\
             if (0 <? historyIndex s)%Z then redo u = Some s else u = s) /\
  (exists r, redo s = Some r /\ settled r /\ history r = history s /\
             if (historyIndex s <? Z.of_nat (List.length (history s)) - 1)%Z
             then undo r = Some s else r = s).
Proof.
  intros [sc h x] (Hidx & Hmax & Hcur). cbn [scenes history historyIndex] in *.
  set (i := Z.to_nat x).
  assert (Hi : x = Z.of_nat i) by (subst i; lia).
  rewrite Hi in *. clearbody i. clear Hi x. rewrite at_nat in Hcur.
  split.
  - unfold undo. cbn [scenes history historyIndex].
    destruct (Z.ltb_spec 0 (Z.of_nat i)) as [Hpos | Hzero].
    + replace (Z.of_nat i - 1)%Z with (Z.of_nat (i - 1)) by lia. rewrite at_nat.
      destruct (nth_error h (i - 1)) as [prev |] eqn:E;
        [| apply nth_error_None in E; lia].
      eexists. split; [reflexivity |]. split; [| split; [reflexivity |]].
      * unfold settled. cbn [scenes history historyIndex]. rewrite at_nat.
        repeat split; try lia. exact E.
      * unfold redo. cbn [scenes history historyIndex].
        destruct (Z.ltb_spec (Z.of_nat (i - 1)) (Z.of_nat (List.length h) - 1)); [| lia].
        replace (Z.of_nat (i - 1) + 1)%Z with (Z.of_nat i) by lia.
        now rewrite at_nat, Hcur.
    + eexists. split; [reflexivity |]. split; [| split; reflexivity].
      unfold settled. cbn [scenes history historyIndex]. rewrite at_nat. auto.
  - unfold redo. cbn [scenes history historyIndex].
    destruct (Z.ltb_spec (Z.of_nat i) (Z.of_nat (List.length h) - 1)) as [Hmore | Hlast].
    + replace (Z.of_nat i + 1)%Z with (Z.of_nat (S i)) by lia. rewrite at_nat.
      destruct (nth_error h (S i)) as [next |] eqn:E;
        [| apply nth_error_None in E; lia].
      eexists. split; [reflexivity |]. split; [| split; [reflexivity |]].
      * unfold settled. cbn [scenes history historyIndex]. rewrite at_nat.
        repeat split; try lia. exact E.
      * unfold undo. cbn [scenes history historyIndex].
        destruct (Z.ltb_spec 0 (Z.of_nat (S i))); [| lia].
        replace (Z.of_nat (S i) - 1)%Z with (Z.of_nat i) by lia.
        now rewrite at_nat, Hcur.
    + eexists. split; [reflexivity |]. split; [| split; reflexivity].
      unfold settled. cbn [scenes history historyIndex]. rewrite at_nat. auto.
Qed.

Lemma undo_redo_inverse_witness :
  settled startSession /\ undo startSession = Some startSession.
Proof.
  assert (H : settled startSession).
  { unfold settled, maxHistorySize. cbn. repeat split; lia. }
  split; [exact H |].
  destruct (undo_redo_inverse startSession H) as [(u & Hu & _ & _ & Heq) _].
  cbn in Heq. now rewrite Hu, Heq.
Defined.

End History.

(* ================================================================== *)
(** ** Export and import of plain text *)
(* ================================================================== *)

Section Interchange.
Import JS Spec SceneCollection Invariants Samples.

Lemma splitChar_plain (sep : ascii) (s : string) :
  allChars (isNot sep) s = true -> splitChar sep s = [s].
Proof.
  induction s as [| c s IH]; [reflexivity |].
  cbn [allChars splitChar]. intro H. apply andb_true_iff in H as [Hc Hs].
  unfold isNot in Hc. apply negb_true_iff in Hc. rewrite Hc, (IH Hs). reflexivity.
Qed.

Lemma splitChar_app (sep : ascii) (a rest : string) :
  allChars (isNot sep) a = true ->
  splitChar sep (a ++ String sep rest) = a :: splitChar sep rest.
Proof.
  induction a as [| c a IH]; cbn [append allChars splitChar].
  - intros _. now rewrite Ascii.eqb_refl.
  - intro H. apply andb_true_iff in H as [Hc Ha].
    unfold isNot in Hc. apply negb_true_iff in Hc. rewrite Hc, (IH Ha). reflexivity.
Qed.

Lemma splitChar_join (sep : ascii) (first : string) (others : list string) :
  forallb (allChars (isNot sep)) (first :: others) = true ->
  splitChar sep (join (String sep "") (first :: others)) = first :: others.
Proof.
  revert first. induction others as [| x rest IH]; intros first H.
  - cbn in H. rewrite andb_true_r in H. now apply splitChar_plain.
  - cbn [forallb] in H. apply andb_true_iff in H as [Hf Hr].
    change (join (String sep "") (first :: x :: rest))
      with (first ++ String sep (join (String sep "") (x :: rest))).
    rewrite (splitChar_app sep first _ Hf). f_equal. apply IH. exact Hr.
Qed.

Lemma allChars_weaken (p q : ascii -> bool) (s : string) :
  (forall c, p c = true -> q c = true) -> allChars p s = true -> allChars q s = true.
Proof.
  intro Hpq. induction s as [| c s IH]; [reflexivity |].
  cbn. intro H. apply andb_true_iff in H as [Hc Hs]. now rewrite (Hpq c Hc), (IH Hs).
Qed.

Lemma lastSatisfies_all (p : ascii -> bool) (s : string) :
  allChars p s = true -> s <> "" -> lastSatisfies p s = true.
Proof.
  induction s as [| c s IH]; [congruence |].
  cbn [allChars]. intros H _. apply andb_true_iff in H as [Hc Hs].
  destruct s as [| d s]; [exact Hc |]. apply (IH Hs). discriminate.
Qed.

Lemma lastSatisfies_snoc (p : ascii -> bool) (s : string) (c : ascii) :
  lastSatisfies p (s ++ String c "") = p c.
Proof.
  induction s as [| a s IH]; [reflexivity |].
  cbn [append]. destruct s as [| b s]; [reflexivity |]. exact IH.
Qed.

Lemma trimEnd_last (s : string) : lastSatisfies visible s = true -> trimEnd s = s.
Proof.
  induction s as [| c s IH]; [discriminate |].
  intro H. destruct (lastSatisfies_cons _ _ _ H) as [[-> Hv] | [Hl Hne]].
  - unfold visible in Hv. apply negb_true_iff in Hv. cbn. now rewrite Hv.
  - specialize (IH Hl). destruct s as [| d s]; [contradiction |].
    apply trimEnd_cons, IH.
Qed.

Lemma trim_visible_ends (s : string) :
  firstSatisfies visible s = true -> lastSatisfies visible s = true -> trim s = s.
Proof.
  intros Hf Hl. unfold trim. destruct s as [| c s]; [discriminate |].
  cbn in Hf. unfold visible in Hf. apply negb_true_iff in Hf.
  rewrite (trimStart_visible c s Hf). now apply trimEnd_last.
Qed.

Lemma dropLastIf_keep (c : ascii) (s : string) :
  lastSatisfies (isNot c) s = true -> dropLastIf c s = s.
Proof.
  induction s as [| a s IH]; [discriminate |].
  intro H. destruct (lastSatisfies_cons _ _ _ H) as [[-> Hv] | [Hl Hne]].
  - unfold isNot in Hv. apply negb_true_iff in Hv. cbn. now rewrite Hv.
  - destruct s as [| b s]; [contradiction |].
    rewrite dropLastIf_head. now rewrite (IH Hl).
Qed.

Lemma dropLastIf_snoc (c : ascii) (s : string) : dropLastIf c (s ++ String c "") = s.
Proof.
  induction s as [| a s IH]; [cbn; now rewrite Ascii.eqb_refl |].
  cbn [append]. destruct s as [| b s].
  - cbn. now rewrite Ascii.eqb_refl.
  - cbn [append] in *. rewrite dropLastIf_head. now rewrite IH.
Qed.

Lemma doubleQuotes_plain (s : string) :
  allChars (isNot dquote) s = true -> doubleQuotes s = s.
Proof.
  induction s as [| c s IH]; [reflexivity |].
  cbn. intro H. apply andb_true_iff in H as [Hc Hs].
  unfold isNot in Hc. apply negb_true_iff in Hc. now rewrite Hc, (IH Hs).
Qed.

Lemma stringOr_some (s : string) : stringOr (Some s) "" = s.
Proof. now destruct s. Qed.

(** The quoted field of a text without quotation marks is read back as the
    text. *)
Lemma csvField_read (text : string) :
  allChars (isNot dquote) text = true ->
  stripQuotes (trim (csvField text)) = text.
Proof.
  intro H. unfold csvField. rewrite (doubleQuotes_plain text H). unfold quoted.
  rewrite trim_visible_ends;
    [| reflexivity
     | change (String dquote (text ++ String dquote ""))
         with (String dquote "" ++ (text ++ String dquote ""));
       rewrite <- append_assoc; now rewrite lastSatisfies_snoc].
  cbn [stripQuotes]. rewrite Ascii.eqb_refl. apply dropLastIf_snoc.
Qed.

Lemma string_of_uint_digits (d : Decimal.uint) :
  allChars isDigit (NilEmpty.string_of_uint d) = true.
Proof. induction d; cbn [NilEmpty.string_of_uint allChars]; try rewrite IHd; reflexivity. Qed.

(** Reading a decimal numeral with an accumulator that is not zero. *)
Lemma readDigits_acc (d : Decimal.uint) (acc : positive) :
  readDigits 10 (Some (Z.pos acc)) (NilEmpty.string_of_uint d)
  = Some (Z.pos (Pos.of_uint_acc d acc)).
Proof.
  revert acc. induction d; intro acc; [reflexivity | ..];
    cbn [NilEmpty.string_of_uint readDigits Pos.of_uint_acc];
    match goal with
    | |- context [digitValue 10 ?c] =>
        let v := eval vm_compute in (digitValue 10 c) in
        change (digitValue 10 c) with v
    end;
    cbv beta iota; rewrite <- IHd; do 2 f_equal; lia.
Qed.

(** Reading it after leading zeros only. *)
Lemma readDigits_zero (d : Decimal.uint) :
  readDigits 10 (Some 0%Z) (NilEmpty.string_of_uint d) = Some (Z.of_N (Pos.of_uint d)).
Proof.
  induction d; [reflexivity | ..];
    cbn [NilEmpty.string_of_uint readDigits Pos.of_uint];
    match goal with
    | |- context [digitValue 10 ?c] =>
        let v := eval vm_compute in (digitValue 10 c) in
        change (digitValue 10 c) with v
    end;
    cbv beta iota; [exact IHd | ..]; apply readDigits_acc.
Qed.

Lemma readDigits_numeral (d : Decimal.uint) :
  d <> Decimal.Nil ->
  readDigits 10 None (NilEmpty.string_of_uint d) = Some (Z.of_N (Pos.of_uint d)).
Proof.
  destruct d; [congruence | ..]; intros _;
    cbn [NilEmpty.string_of_uint readDigits Pos.of_uint];
    match goal with
    | |- context [digitValue 10 ?c] =>
        let v := eval vm_compute in (digitValue 10 c) in
        change (digitValue 10 c) with v
    end;
    cbv beta iota; [apply readDigits_zero | ..]; apply readDigits_acc.
Qed.

Lemma numberToString_pos (p : positive) :
  numberToString (Z.pos p) = NilEmpty.string_of_uint (Pos.to_uint p).
Proof.
  unfold numberToString. cbn [Z.to_int NilZero.string_of_int].
  unfold NilZero.string_of_uint.
  pose proof (Unsigned.to_uint_nonnil p) as H.
  destruct (Pos.to_uint p); [contradiction | ..]; reflexivity.
Qed.

Lemma string_of_uint_nonempty (d : Decimal.uint) :
  d <> Decimal.Nil -> NilEmpty.string_of_uint d <> "".
Proof. destruct d; [congruence | ..]; discriminate. Qed.

(** On a string of digits parseInt skips nothing, sees no sign and no hex
    prefix, and reads the digits. *)
Lemma parseInt_digits (s : string) :
  allChars isDigit s = true -> s <> "" -> parseInt s = readDigits 10 None s.
Proof.
  destruct s as [| a s]; [congruence |]. intros H _.
  cbn [allChars] in H. apply andb_true_iff in H as [Ha Hs].
  destruct s as [| x s].
  - revert Ha. clear. destruct a as [[] [] [] [] [] [] [] []]; intro Ha;
      try discriminate Ha; reflexivity.
  - cbn [allChars] in Hs. apply andb_true_iff in Hs as [Hx _].
    assert (Hhex : Ascii.eqb x "x" || Ascii.eqb x "X" = false)
      by (revert Hx; clear; destruct x as [[] [] [] [] [] [] [] []]; intro Hx;
          try discriminate Hx; reflexivity).
    revert Ha. destruct a as [[] [] [] [] [] [] [] []]; intro Ha;
      try discriminate Ha; try reflexivity.
    unfold parseInt, readUnsigned. cbn [trimStart isWhiteSpace]. 
    change (isWhiteSpace "0") with false. cbv beta iota. now rewrite Hhex.
Qed.

Lemma parseInt_numberToString (p : positive) :
  parseInt (numberToString (Z.pos p)) = Some (Z.pos p).
Proof.
  rewrite numberToString_pos.
  rewrite parseInt_digits;
    [| apply string_of_uint_digits
     | apply string_of_uint_nonempty, Unsigned.to_uint_nonnil].
  rewrite readDigits_numeral by apply Unsigned.to_uint_nonnil.
  now rewrite Unsigned.of_to.
Qed.

Lemma digit_shape (c : ascii) :
  isDigit c = true ->
  visible c = true /\ isNot "," c = true /\ isNot dquote c = true
  /\ isNot (ascii_of_nat 10) c = true.
Proof.
  destruct c as [[] [] [] [] [] [] [] []]; intro H; try discriminate H;
    repeat split; reflexivity.
Qed.

Lemma plainChar_shape (c : ascii) :
  plainChar c = true ->
  isNot "," c = true /\ isNot dquote c = true /\ isNot (ascii_of_nat 10) c = true.
Proof.
  unfold plainChar, isNot. intro H. apply andb_true_iff in H as [H H3].
  apply andb_true_iff in H as [H1 H2]. auto.
Qed.

Lemma numberToString_shape (p : positive) :
  exists c r, numberToString (Z.pos p) = String c r /\ isDigit c = true /\
              allChars isDigit (String c r) = true.
Proof.
  rewrite numberToString_pos.
  pose proof (string_of_uint_digits (Pos.to_uint p)) as Hd.
  pose proof (string_of_uint_nonempty _ (Unsigned.to_uint_nonnil p)) as Hne.
  destruct (NilEmpty.string_of_uint (Pos.to_uint p)) as [| c r]; [contradiction |].
  exists c, r. split; [reflexivity |]. split; [| exact Hd].
  cbn in Hd. now apply andb_true_iff in Hd as [Hc _].
Qed.

Lemma csvField_clean (sep : ascii) (text : string) :
  isNot sep dquote = true ->
  allChars (isNot sep) text = true -> allChars (isNot dquote) text = true ->
  allChars (isNot sep) (csvField text) = true.
Proof.
  intros Hq Hs Hd. unfold csvField, quoted. rewrite (doubleQuotes_plain text Hd).
  cbn [allChars]. rewrite Hq, allChars_app, Hs. cbn [allChars andb]. now rewrite Hq.
Qed.

Lemma csvLine_parts (scene : Scene) :
  csvLine scene
  = numberToString (scene_order scene)
    ++ String "," (csvField (image_prompt scene)
                   ++ String "," (csvField (narration_script scene))).
Proof. reflexivity. Qed.

Lemma plainScene_parts (scene : Scene) :
  plainScene scene = true ->
  allChars plainChar (image_prompt scene) = true /\
  allChars plainChar (narration_script scene) = true /\
  exists p, scene_order scene = Z.pos p.
Proof.
  unfold plainScene, plainText. intro H.
  apply andb_true_iff in H as [H _]. apply andb_true_iff in H as [H Ho].
  apply andb_true_iff in H as [Hi Hn]. repeat split; try assumption.
  destruct (scene_order scene) as [| p | p]; try discriminate Ho. now exists p.
Qed.

(** A line written for a plain scene has no line feed, starts with a digit,
    and is read back as the scene's order and texts. *)
Lemma csvLine_read (now : Z) (scene : Scene) (i : nat) :
  plainScene scene = true ->
  allChars (isNot (ascii_of_nat 10)) (csvLine scene) = true /\
  truthy (trim (csvLine scene)) = true /\
  triple (sceneOfLine now (csvLine scene) i) = triple scene.
Proof.
  intro H. destruct (plainScene_parts scene H) as (Hi & Hn & p & Hp).
  pose proof (allChars_weaken _ _ _ (fun c Hc => proj1 (plainChar_shape c Hc)) Hi) as Hic.
  pose proof (allChars_weaken _ _ _ (fun c Hc => proj1 (proj2 (plainChar_shape c Hc))) Hi) as Hiq.
  pose proof (allChars_weaken _ _ _ (fun c Hc => proj2 (proj2 (plainChar_shape c Hc))) Hi) as Hil.
  pose proof (allChars_weaken _ _ _ (fun c Hc => proj1 (plainChar_shape c Hc)) Hn) as Hnc.
  pose proof (allChars_weaken _ _ _ (fun c Hc => proj1 (proj2 (plainChar_shape c Hc))) Hn) as Hnq.
  pose proof (allChars_weaken _ _ _ (fun c Hc => proj2 (proj2 (plainChar_shape c Hc))) Hn) as Hnl.
  destruct (numberToString_shape p) as (c & r & Hnum & Hc & Hdig).
  pose proof (allChars_weaken _ _ _ (fun c Hc => proj1 (digit_shape c Hc)) Hdig) as Hdv.
  pose proof (allChars_weaken _ _ _ (fun c Hc => proj1 (proj2 (digit_shape c Hc))) Hdig) as Hdc.
  pose proof (allChars_weaken _ _ _
                (fun c Hc => proj1 (proj2 (proj2 (digit_shape c Hc)))) Hdig) as Hdq.
  pose proof (allChars_weaken _ _ _
                (fun c Hc => proj2 (proj2 (proj2 (digit_shape c Hc)))) Hdig) as Hdl.
  destruct (digit_shape c Hc) as (Hcv & _ & Hcq & _).
  rewrite csvLine_parts, Hp, Hnum. split; [| split].
  - rewrite allChars_app, Hdl. cbn [allChars andb].
    rewrite allChars_app, (csvField_clean (ascii_of_nat 10) _ eq_refl Hil Hiq).
    cbn [allChars andb]. now rewrite (csvField_clean (ascii_of_nat 10) _ eq_refl Hnl Hnq).
  - cbn [append]. unfold trim. unfold visible in Hcv. apply negb_true_iff in Hcv.
    rewrite (trimStart_visible c _ Hcv).
    destruct (trimEnd_head c (r ++ String "," (csvField (image_prompt scene)
                ++ String "," (csvField (narration_script scene)))) Hcv) as (r' & ->).
    reflexivity.
  - unfold sceneOfLine.
    rewrite (splitChar_app "," _ _ Hdc).
    rewrite (splitChar_app "," _ _ (csvField_clean "," _ eq_refl Hic Hiq)).
    rewrite (splitChar_plain "," _ (csvField_clean "," _ eq_refl Hnc Hnq)).
    cbn [map nth nth_error].
    rewrite (csvField_read _ Hiq), (csvField_read _ Hnq), !stringOr_some.
    assert (Hnumread : stripQuotes (trim (String c r)) = String c r).
    { rewrite trim_visible_ends;
        [| exact Hcv | apply lastSatisfies_all; [exact Hdv | discriminate]].
      cbn [stripQuotes]. unfold isNot in Hcq. apply negb_true_iff in Hcq. rewrite Hcq.
      apply dropLastIf_keep, lastSatisfies_all; [exact Hdq | discriminate]. }
    rewrite Hnumread, <- Hnum, parseInt_numberToString.
    unfold triple. cbn. now rewrite Hp.
Qed.

Lemma handleCSVImport_lines (now : Z) (csv header : string) (rows : list string) :
  filter (fun line => truthy (trim line)) (splitChar (ascii_of_nat 10) csv) = header :: rows ->
  headerRejected header = false ->
  handleCSVImport now csv = ImportSuccessful (mapIndexFrom (sceneOfLine now) 1 rows).
Proof.
  intros Hlines Hheader. unfold handleCSVImport. rewrite Hlines.
  unfold headerRejected in Hheader. cbv zeta in *. now rewrite Hheader.
Qed.

Lemma filter_all {A : Type} (p : A -> bool) (l : list A) :
  forallb p l = true -> filter p l = l.
Proof.
  induction l as [| x l IH]; [reflexivity |].
  cbn. intro H. apply andb_true_iff in H as [Hx Hl]. now rewrite Hx, (IH Hl).
Qed.

(** X26: the round trip holds for plain text.  When every scene has a
    positive order below 2^53 and texts without comma, quotation mark and
    line feed, importing the exported file succeeds and returns scenes with
    the same orders, image prompts and narration scripts, in the same
    order. *)
Theorem export_import_plain : forall (now : Z) (xs : list Scene),
  forallb plainScene xs = true ->
  exists imported : list Scene,
    handleCSVImport now (exportToCSV xs) = ImportSuccessful imported /\
    map triple imported = map triple xs.
Proof.
  intros now xs H.
  assert (Hlines : forallb (allChars (isNot (ascii_of_nat 10)))
                           (join "," csvHeaders :: map csvLine xs) = true
                   /\ forallb (fun line => truthy (trim line))
                              (join "," csvHeaders :: map csvLine xs) = true).
  { cbn [forallb]. change (allChars _ (join "," csvHeaders)) with true.
    change (truthy (trim (join "," csvHeaders))) with true. cbn [andb].
    induction xs as [| x xs IH]; [split; reflexivity |].
    cbn [forallb] in H. apply andb_true_iff in H as [Hx Hxs].
    destruct (csvLine_read now x 0 Hx) as (Hl & Hv & _).
    destruct (IH Hxs) as [IH1 IH2]. cbn [map forallb]. now rewrite Hl, Hv, IH1, IH2. }
  destruct Hlines as [Hlf Hvis].
  exists (mapIndexFrom (sceneOfLine now) 1 (map csvLine xs)). split.
  - apply (handleCSVImport_lines now _ (join "," csvHeaders)); [| reflexivity].
    change (exportToCSV xs)
      with (join (String (ascii_of_nat 10) "") (join "," csvHeaders :: map csvLine xs)).
    rewrite (splitChar_join _ _ _ Hlf). now apply filter_all.
  - clear Hlf Hvis. generalize 1.
    induction xs as [| x xs IH]; intro n; [reflexivity |].
    cbn [forallb] in H. apply andb_true_iff in H as [Hx Hxs].
    cbn [map mapIndexFrom]. destruct (csvLine_read now x n Hx) as (_ & _ & ->).
    now rewrite (IH Hxs).
Qed.

Lemma export_import_plain_witness :
  forallb plainScene plainScenes = true /\
  exists imported : list Scene,
    handleCSVImport 0 (exportToCSV plainScenes) = ImportSuccessful imported /\
    map triple imported = map triple plainScenes.
Proof.
  split; [reflexivity | apply export_import_plain; reflexivity].
Defined.

Lemma whitespace_not_comma (c : ascii) : isWhiteSpace c = true -> isNot "," c = true.
Proof. destruct c as [[] [] [] [] [] [] [] []]; intro H; try discriminate H; reflexivity. Qed.

Lemma headerRejected_blank (header : string) :
  truthy (trim header) = false -> headerRejected header = true.
Proof.
  intro H. pose proof (truthy_trim_false header H) as Hb.
  unfold headerRejected.
  rewrite (splitChar_plain "," header (allChars_weaken _ _ _ whitespace_not_comma Hb)).
  cbn [map]. now rewrite (trim_blank header Hb).
Qed.

(** X27: the import reads its columns by position.  Any first line that
    names scene_order, image_prompt and narration_script, in whatever order
    and with whatever other columns, is accepted, and the scenes are then
    built from the data lines alone: piece 0 is the order, piece 1 the image
    prompt and piece 2 the narration, whatever the header says. *)
Theorem handleCSVImport_by_position : forall (now : Z) (header body : string),
  allChars (isNot (ascii_of_nat 10)) header = true ->
  headerRejected header = false ->
  handleCSVImport now (header ++ PromptOptimizer.newline ++ body)
  = ImportSuccessful
      (mapIndexFrom (sceneOfLine now) 1
         (filter (fun line => truthy (trim line)) (splitChar (ascii_of_nat 10) body))).
Proof.
  intros now header body Hlf Hok.
  apply (handleCSVImport_lines now _ header); [| exact Hok].
  change (header ++ PromptOptimizer.newline ++ body)
    with (header ++ String (ascii_of_nat 10) body).
  rewrite (splitChar_app _ header body Hlf). cbn [filter].
  destruct (truthy (trim header)) eqn:E; [reflexivity |].
  rewrite (headerRejected_blank header E) in Hok. discriminate.
Qed.

Lemma handleCSVImport_by_position_witness :
  let header := " narration_script ,image_prompt,notes,scene_order" in
  allChars (isNot (ascii_of_nat 10)) header = true /\
  headerRejected header = false /\
  exists imported,
    handleCSVImport 0 (header ++ PromptOptimizer.newline ++ "We learn.,A lake,draft,4")
    = ImportSuccessful imported /\
    map triple imported = [(1%Z, "A lake", "draft")].
Proof.
  split; [reflexivity |]. split; [reflexivity |].
  eexists. split;
    [apply (handleCSVImport_by_position 0 " narration_script ,image_prompt,notes,scene_order");
       reflexivity
    | reflexivity].
Defined.

Lemma splitChar_blank (sep : ascii) (csv : string) :
  allChars isWhiteSpace csv = true ->
  forallb (allChars isWhiteSpace) (splitChar sep csv) = true.
Proof.
  induction csv as [| c s IH]; [reflexivity |].
  cbn [allChars splitChar]. intro H. apply andb_true_iff in H as [Hc Hs].
  specialize (IH Hs). destruct (Ascii.eqb c sep); [exact IH |].
  destruct (splitChar sep s) as [| piece rest]; cbn in *; [now rewrite Hc |].
  now rewrite Hc.
Qed.

Lemma filter_none {A : Type} (p q : A -> bool) (l : list A) :
  (forall x, p x = true -> q x = false) -> forallb p l = true -> filter q l = [].
Proof.
  intro Hpq. induction l as [| x l IH]; [reflexivity |].
  cbn. intro H. apply andb_true_iff in H as [Hx Hl]. now rewrite (Hpq x Hx), (IH Hl).
Qed.

(** X28: a file that trim() leaves empty (an empty file, or blank lines
    only) is not imported: there is no header line to read, and the import
    fails. *)
Theorem handleCSVImport_blank_file : forall (now : Z) (csv : string),
  trim csv = "" ->
  exists message, handleCSVImport now csv = ImportFailed message.
Proof.
  intros now csv H. apply trim_empty in H. unfold handleCSVImport.
  rewrite (filter_none (allChars isWhiteSpace) _ _
             (fun x Hx => f_equal truthy (trim_blank x Hx))
             (splitChar_blank _ csv H)).
  eexists. reflexivity.
Qed.

Lemma handleCSVImport_blank_file_witness :
  let csv := PromptOptimizer.newline ++ "  " ++ PromptOptimizer.newline in
  trim csv = "" /\
  exists message, handleCSVImport 0 csv = ImportFailed message.
Proof.
  split; [reflexivity | apply handleCSVImport_blank_file; reflexivity].
Defined.

End Interchange.

(* ================================================================== *)
(** ** What the component displays *)
(* ================================================================== *)

Section Display.
Import JS Spec PromptAnalyzer Component Invariants.

Lemma tokens_skip (c : ascii) (s : string) :
  isWhiteSpace c = true -> tokens (String c s) = tokens s.
Proof. intro H. cbn. now rewrite H. Qed.

Lemma tokens_trimStart (s : string) : tokens (trimStart s) = tokens s.
Proof.
  induction s as [| c s IH]; [reflexivity |].
  cbn [trimStart]. destruct (isWhiteSpace c) eqn:E; [| reflexivity].
  now rewrite (tokens_skip c s E).
Qed.

Lemma trimEnd_keeps_head (d d' : ascii) (s r : string) :
  trimEnd (String d s) = String d' r -> d' = d.
Proof.
  cbn [trimEnd]. destruct (trimEnd s); [destruct (isWhiteSpace d) |]; congruence.
Qed.

Lemma tokens_trimEnd (s : string) : tokens (trimEnd s) = tokens s.
Proof.
  induction s as [| c s IH]; [reflexivity |].
  cbn [trimEnd]. destruct (trimEnd s) as [| d' r] eqn:E.
  - pose proof (trimEnd_empty s E) as Hb.
    destruct (isWhiteSpace c) eqn:Ec.
    + now rewrite (tokens_skip c s Ec), (tokens_blank s Hb).
    + destruct s as [| d s]; [reflexivity |].
      cbn [allChars] in Hb. apply andb_true_iff in Hb as [Hd Hs].
      rewrite (tokens_break c d s Ec Hd), (tokens_skip d s Hd), (tokens_blank s Hs).
      cbn. now rewrite Ec.
  - destruct s as [| d s]; [discriminate E |].
    pose proof (trimEnd_keeps_head d d' s r E). subst d'.
    destruct (isWhiteSpace c) eqn:Ec.
    + now rewrite !(tokens_skip c _ Ec).
    + destruct (isWhiteSpace d) eqn:Ed.
      * now rewrite !(tokens_break c d _ Ec Ed), IH.
      * now rewrite !(tokens_grow c d _ Ec Ed), IH.
Qed.

(** X29: the word counter shown under the narration field and the word
    count the readability formula uses are the same number for every
    narration. *)
Theorem displayedWordCount_agrees : forall narration : string,
  displayedWordCount narration = wordCount narration.
Proof.
  intro narration. unfold displayedWordCount, wordCount, splitWhitespace, splitRuns.
  change (fun w => 0 <? String.length w) with nonEmpty.
  rewrite !tokens_split. unfold trim. now rewrite tokens_trimEnd, tokens_trimStart.
Qed.

End Display.
